(** * Senteng design system: Google service facade, sheet mapper and
      token-exchange relay

    A shallow embedding of
    - [src/services/googleService.js]: the client bootstrap
      ([loadGapiScript], [ensureGapiClient], [ensureGisClient],
      [initClient]) and the operations built on it ([syncToSheet],
      [fetchSheetData], [addToCalendar], [createDriveFolder],
      [uploadToDrive]), and the sign-in flow ([login], [logout],
      [getUser]);
    - [App.jsx]: [sheetValuesToObjects], the calendar entries of
      [loadAllData] and [eventsByDate];
    - the serverless token-exchange [handler].

    JavaScript strings are modelled as [string] (sequences of bytes, a
    non-ASCII literal being its UTF-8 encoding), objects read as maps
    as [gmap string _], objects whose key order matters as association
    lists in [Object.keys] order. Properties inherited from
    [Object.prototype] are outside the model, except in [eventsByDate],
    which reads them. *)

From Stdlib Require Import ZArith Ascii String List Lia.
From stdpp Require Import base option list gmap strings pretty.

Open Scope string_scope.
Set Warnings "-register-all".

(* ================================================================= *)
(** * JavaScript values *)

(** Numbers are IEEE doubles in the source; the code only ever converts
    them to text, tests them for truthiness or gets one as a length, so
    they are kept abstract behind these three operations. *)
Class Numbers := {
  number : Type;
  number_truthy : number → bool;        (* ToBoolean: false on 0 and NaN *)
  Number_toString : number → string;    (* String(n) *)
  number_of_nat : nat → number;         (* array and string lengths *)
}.

Section Values.
Context `{Numbers}.

Inductive value : Type :=
| VUndefined
| VNull
| VBool (b : bool)
| VNum (n : number)
| VStr (s : string)
| VArr (elems : list value)
| VObj (fields : list (string * value)).

(** ToBoolean, as used by [!x], [x || y], [x && y] and [c ? a : b]. *)
Definition truthy (v : value) : bool :=
  match v with
  | VUndefined | VNull => false
  | VBool b => b
  | VNum n => number_truthy n
  | VStr s => negb (String.eqb s "")
  | VArr _ | VObj _ => true
  end.

(** [a || b] *)
Definition or_else (a b : value) : value := if truthy a then a else b.

(** [String(v)], which is also the conversion done by a template literal.
    An array joins its elements with commas, [null] and [undefined]
    elements giving the empty text. *)
Fixpoint String_ (v : value) : string :=
  match v with
  | VUndefined => "undefined"
  | VNull => "null"
  | VBool true => "true"
  | VBool false => "false"
  | VNum n => Number_toString n
  | VStr s => s
  | VArr l =>
      String.concat ","
        (List.map (fun x => match x with
                            | VUndefined | VNull => ""
                            | _ => String_ x
                            end) l)
  | VObj _ => "[object Object]"
  end.

(** Own property of an object given as an association list. *)
Fixpoint own (fields : list (string * value)) (k : string) : option value :=
  match fields with
  | [] => None
  | (k', v) :: rest => if String.eqb k' k then Some v else own rest k
  end.

(** The index an array-index key denotes, among the first [n] indices. *)
Definition index_of_key (n : nat) (k : string) : option nat :=
  List.find (fun i => bool_decide (pretty i = k)) (seq 0 n).

Definition chars (s : string) : list string :=
  List.map (fun c => String c EmptyString) (list_ascii_of_string s).

(** [Object.keys(v)] for a value that is not [null] or [undefined]. A
    string has one index per byte here and one per UTF-16 code unit in
    JavaScript, which is the same on ASCII text. *)
Definition Object_keys (v : value) : list string :=
  match v with
  | VObj fs => List.map fst fs
  | VArr l => List.map pretty (seq 0 (length l))
  | VStr s => List.map pretty (seq 0 (String.length s))
  | _ => []
  end.

(** [v?.[k]]: the property [k] of [v], [undefined] when [v] is [null]
    or [undefined] or has no such property. *)
Definition opt_get (v : value) (k : string) : value :=
  match v with
  | VObj fs => default VUndefined (own fs k)
  | VArr l =>
      if decide (k = "length") then VNum (number_of_nat (length l))
      else match index_of_key (length l) k with
           | Some i => default VUndefined (l !! i)
           | None => VUndefined
           end
  | VStr s =>
      if decide (k = "length") then VNum (number_of_nat (String.length s))
      else match index_of_key (String.length s) k with
           | Some i => from_option VStr VUndefined (chars s !! i)
           | None => VUndefined
           end
  | _ => VUndefined
  end.

(** [v.k] and destructuring [{k} = v]: a [TypeError] ([None]) on [null]
    and [undefined]. *)
Definition get (v : value) (k : string) : option value :=
  match v with
  | VUndefined | VNull => None
  | _ => Some (opt_get v k)
  end.

End Values.

(** Built-ins of the runtime that the source calls and does not define. *)
Class Builtins `{Numbers} := {
  (* JSON.stringify on an array or object; [None] when it throws *)
  JSON_stringify : value → option string;
  (* the time value of [new Date(text)]; [None] for an invalid date *)
  Date_parse : string → option Z;
  (* Date.prototype.toISOString on a valid time value *)
  Date_toISOString : Z → string;
  (* btoa over the bytes of a buffer *)
  base64 : list Byte.byte → string;
}.

(* ================================================================= *)
(** * Sheet-backed data mapper: pure part *)

Section Mapper.
Context `{Builtins}.

(** ** Write side ([syncToSheet]) *)

(** [Array.from(new Set(keys))]: duplicates dropped, order of first
    appearance kept. *)
Definition set_add (acc : list string) (k : string) : list string :=
  if decide (k ∈ acc) then acc else acc ++ [k].

Definition Array_from_Set (keys : list string) : list string :=
  foldl set_add [] keys.

(** [values.flatMap((item) => Object.keys(item || {}))] *)
Definition item_keys (item : value) : list string :=
  if truthy item then Object_keys item else [].

Definition allKeys (values : list value) : list string :=
  Array_from_Set (List.flat_map item_keys values).

(** The text written for one property value. *)
Definition cell (v : value) : string :=
  match v with
  | VNull | VUndefined => ""
  | VArr _ | VObj _ =>
      match JSON_stringify v with
      | Some s => s
      | None => String_ v
      end
  | _ => String_ v
  end.

(** [item?.[key]] is read as an own property: that is the value
    JavaScript reads whenever [key] is not a name [item] inherits from
    its prototype. *)
Definition sheet_row (keys : list string) (item : value) : list string :=
  List.map (fun key => cell (opt_get item key)) keys.

(** [rows]: the header followed by one row per item. *)
Definition sheet_rows (values : list value) : list (list string) :=
  allKeys values :: List.map (sheet_row (allKeys values)) values.

(** ** Read side ([sheetValuesToObjects]) *)

(** [header.forEach((key, i) => { if (!key) return; obj[key] = row[i] ?? ""; })],
    started at column [i]. On an object literal [obj["__proto__"] = text]
    is the setter of the prototype, which ignores a text: it stores no
    property. *)
Fixpoint fill_object (header : list string) (i : nat) (row : list string)
    (obj : gmap string string) : gmap string string :=
  match header with
  | [] => obj
  | key :: rest =>
      fill_object rest (S i) row
        (if decide (key = "") then obj
         else if decide (key = "__proto__") then obj
         else <[key := default "" (row !! i)]> obj)
  end.

(** [`${sheetName}-${idx + 1}`] *)
Definition synthesized_id (sheetName : string) (idx : nat) : string :=
  sheetName +:+ "-" +:+ pretty (idx + 1)%nat.

(** [!obj.id] is false exactly when the object has a non-empty [id]. *)
Definition has_id (obj : gmap string string) : bool :=
  match obj !! "id" with
  | Some s => negb (String.eqb s "")
  | None => false
  end.

Definition row_to_object (header : list string) (sheetName : string)
    (idx : nat) (row : list string) : gmap string string :=
  let obj := fill_object header 0 row ∅ in
  if has_id obj then obj else <["id" := synthesized_id sheetName idx]> obj.

(** [values] is [None] for [null] or [undefined]. *)
Definition sheetValuesToObjects (values : option (list (list string)))
    (sheetName : string) : list (gmap string string) :=
  match values with
  | None | Some [] => []
  | Some (header :: rows) => imap (row_to_object header sheetName) rows
  end.

(** The object a row gives before an identifier is made up for it. *)
Definition source_object (header row : list string) : gmap string string :=
  fill_object header 0 row ∅.

(** The record [item] with every own field replaced by its cell text: the
    original restricted to what a sheet can hold. *)
Definition stringified (item : value) : gmap string string :=
  list_to_map (List.map (fun k => (k, cell (opt_get item k))) (item_keys item)).

End Mapper.

(* ================================================================= *)
(** * Asynchronous programs

    An [async] function is a tree of steps: it reads and writes the
    module-wide variables, issues requests to its collaborators and
    suspends at every [await]. One definition of a function serves the
    run of a single call ([run]) and the interleaving of several
    ([exec]). *)

Inductive result (Err A : Type) : Type :=
| Returned (a : A)
| Thrown (e : Err).
Arguments Returned {Err A} a.
Arguments Thrown {Err A} e.

Section Prog.
Context {St Req Rsp Err : Type}.

Inductive prog (A : Type) : Type :=
| Ret (a : A)
| Throw (e : Err)
| Get (k : St → prog A)
| Put (s : St) (k : prog A)
  (* issue [r], suspend until it settles *)
| Await (r : Req) (k : Rsp + Err → prog A)
  (* a synchronous call into a collaborator *)
| Invoke (r : Req) (k : Rsp + Err → prog A)
  (* [await] on a promise that is already settled *)
| Yield (k : prog A).

Arguments Ret {A} a.
Arguments Throw {A} e.
Arguments Get {A} k.
Arguments Put {A} s k.
Arguments Await {A} r k.
Arguments Invoke {A} r k.
Arguments Yield {A} k.

Fixpoint bind {A B} (p : prog A) (f : A → prog B) : prog B :=
  match p with
  | Ret a => f a
  | Throw e => Throw e
  | Get k => Get (fun s => bind (k s) f)
  | Put s k => Put s (bind k f)
  | Await r k => Await r (fun o => bind (k o) f)
  | Invoke r k => Invoke r (fun o => bind (k o) f)
  | Yield k => Yield (bind k f)
  end.

(** [try { p } catch (e) { h e }] *)
Fixpoint try_catch {A} (p : prog A) (h : Err → prog A) : prog A :=
  match p with
  | Ret a => Ret a
  | Throw e => h e
  | Get k => Get (fun s => try_catch (k s) h)
  | Put s k => Put s (try_catch k h)
  | Await r k => Await r (fun o => try_catch (k o) h)
  | Invoke r k => Invoke r (fun o => try_catch (k o) h)
  | Yield k => Yield (try_catch k h)
  end.

(** The value of a settled promise, or its rejection rethrown. *)
Definition settled {A} (f : Rsp → prog A) (o : Rsp + Err) : prog A :=
  match o with
  | inl v => f v
  | inr e => Throw e
  end.

(** [await r(...)] for a request to a collaborator. *)
Definition call (r : Req) : prog Rsp := Await r (settled Ret).

(** [await p] for a call of another [async] function. *)
Definition await {A} (p : prog A) : prog A := bind p (fun a => Yield (Ret a)).

Definition modify (f : St → St) : prog unit :=
  Get (fun s => Put (f s) (Ret tt)).

(** ** One call run to completion

    The environment decides how each request settles, given its
    position among the requests issued so far; [settle] is what a settled
    request does to the shared state. *)

Record world := World { state_of : St; trace : list Req }.

Section Run.
Variable env : nat → Req → Rsp + Err.
Variable settle : Req → Rsp + Err → St → St.

Definition issue (r : Req) (w : world) : (Rsp + Err) * world :=
  let o := env (length (trace w)) r in
  (o, World (settle r o (state_of w)) (trace w ++ [r])).

Fixpoint run {A} (p : prog A) (w : world) : result Err A * world :=
  match p with
  | Ret a => (Returned a, w)
  | Throw e => (Thrown e, w)
  | Get k => run (k (state_of w)) w
  | Put s k => run k (World s (trace w))
  | Await r k | Invoke r k => let '(o, w') := issue r w in run (k o) w'
  | Yield k => run k w
  end.

(** What [p] issued when run from [w]. *)
Definition issued {A} (p : prog A) (w : world) : list Req :=
  drop (length (trace w)) (trace (run p w).2).

(** ** Several calls in flight

    A call runs without interruption up to its next [await]; the
    scheduler then chooses which suspended call goes on. A request is
    recorded when it is issued and settles, as the environment says for
    its position, when the call waiting for it is resumed. *)

Inductive task (A : Type) : Type :=
| Waiting (idx : nat) (r : Req) (k : Rsp + Err → prog A)
| Ready (k : prog A)
| Finished (res : result Err A).

Fixpoint advance {A} (p : prog A) (w : world) : task A * world :=
  match p with
  | Ret a => (Finished A (Returned a), w)
  | Throw e => (Finished A (Thrown e), w)
  | Get k => advance (k (state_of w)) w
  | Put s k => advance k (World s (trace w))
  | Await r k =>
      (Waiting A (length (trace w)) r k, World (state_of w) (trace w ++ [r]))
  | Invoke r k => let '(o, w') := issue r w in advance (k o) w'
  | Yield k => (Ready A k, w)
  end.

Definition resume {A} (t : task A) (w : world) : option (task A * world) :=
  match t with
  | Waiting _ idx r k =>
      let o := env idx r in
      Some (advance (k o) (World (settle r o (state_of w)) (trace w)))
  | Ready _ k => Some (advance k w)
  | Finished _ _ => None
  end.

Record system (A : Type) := System { pool : list (task A); shared : world }.

(** How each call of the pool ended, [None] for one still in flight. *)
Definition outcomes_of {A} (sys : system A) : list (option (result Err A)) :=
  List.map (fun t => match t with
                     | Finished _ r => Some r
                     | _ => None
                     end) (pool _ sys).

Inductive sched (A : Type) : Type :=
| Spawn (p : prog A)      (* a new call begins *)
| Step (tid : nat).       (* the suspended call [tid] goes on *)

Definition sched_step {A} (sys : system A) (ev : sched A) : option (system A) :=
  match ev with
  | Spawn _ p =>
      let '(t, w) := advance p (shared _ sys) in
      Some (System A (pool _ sys ++ [t]) w)
  | Step _ i =>
      match pool _ sys !! i with
      | Some t =>
          match resume t (shared _ sys) with
          | Some (t', w) => Some (System A (<[i := t']> (pool _ sys)) w)
          | None => None
          end
      | None => None
      end
  end.

Fixpoint exec {A} (evs : list (sched A)) (sys : system A) : option (system A) :=
  match evs with
  | [] => Some sys
  | ev :: rest =>
      match sched_step sys ev with
      | Some sys' => exec rest sys'
      | None => None
      end
  end.

End Run.
End Prog.

Arguments prog : clear implicits.
Arguments world : clear implicits.
Arguments task : clear implicits.
Arguments system : clear implicits.
Arguments sched : clear implicits.
Arguments Ret {St Req Rsp Err A} a.
Arguments Throw {St Req Rsp Err A} e.
Arguments Get {St Req Rsp Err A} k.
Arguments Put {St Req Rsp Err A} s k.
Arguments Await {St Req Rsp Err A} r k.
Arguments Invoke {St Req Rsp Err A} r k.
Arguments Yield {St Req Rsp Err A} k.
Arguments World {St Req} state_of trace.
Arguments Waiting {St Req Rsp Err A} idx r k.
Arguments Ready {St Req Rsp Err A} k.
Arguments Finished {St Req Rsp Err A} res.
Arguments System {St Req Rsp Err A} pool shared.
Arguments pool {St Req Rsp Err A} s.
Arguments outcomes_of {St Req Rsp Err A} sys.
Arguments shared {St Req Rsp Err A} s.
Arguments Spawn {St Req Rsp Err A} p.
Arguments Step {St Req Rsp Err A} tid.

(* ================================================================= *)
(** * The Google service facade ([googleService.js]) *)

Section Errors.
Context `{Numbers}.

(** What a [throw] or a rejected promise carries. *)
Inductive error : Type :=
| Error_ (message : string)        (* new Error(message) *)
| TypeError (message : string)     (* a property read on null or undefined *)
| RangeError (message : string)    (* toISOString on an invalid date *)
| Rejection (reason : value).      (* whatever a collaborator rejects with *)

End Errors.

(** Build-time configuration ([import.meta.env]); an unset variable is
    [undefined]. *)
Record config := Config {
  CLIENT_ID : option string;
  API_KEY : option string;
  SPREADSHEET_ID : option string;
  DRIVE_ROOT_FOLDER_ID : option string;
}.

Definition env_truthy (x : option string) : bool :=
  match x with
  | Some s => negb (String.eqb s "")
  | None => false
  end.

Definition SCOPES : string :=
  String.concat " "
    [ "openid"; "email"; "profile";
      "https://www.googleapis.com/auth/drive.file";
      "https://www.googleapis.com/auth/spreadsheets";
      "https://www.googleapis.com/auth/calendar" ].

Definition DISCOVERY_DOCS : list string :=
  [ "https://sheets.googleapis.com/$discovery/rest?version=v4";
    "https://www.googleapis.com/discovery/v1/apis/calendar/v3/rest";
    "https://www.googleapis.com/discovery/v1/apis/drive/v3/rest" ].

Definition GAPI_SCRIPT : string := "https://apis.google.com/js/api.js".
Definition GIS_SCRIPT : string := "https://accounts.google.com/gsi/client".

Record event_time := EventTime { dateTime : string; timeZone : string }.

Section Service.
Context `{Builtins}.

(** The module-wide variables, and what the module reads of the page. *)
Record gs_state := GsState {
  gapiInited : bool;
  gisInited : bool;
  tokenClient : value;           (* null until the token client exists *)
  accessToken : value;           (* null when signed out *)
  currentUserProfile : value;
  window_gapi : bool;            (* window.gapi is defined *)
  window_gis : bool;             (* window.google.accounts.oauth2 is defined *)
  gapi_client : bool;            (* window.gapi.client is defined *)
}.

(** The event resource sent to the calendar. *)
Record calendar_resource := CalendarResource {
  summary : value;
  description : string;
  start : event_time;
  end_ : event_time;
}.

(** Requests to the page, the Google libraries and the remote APIs. *)
Inductive request : Type :=
| AppendScript (src : string)
| GapiLoad (libraries : string)
| GapiClientInit (apiKey : option string) (discoveryDocs : list string)
| InitTokenClient (client_id : option string) (scope : string)
| SheetsValuesClear (spreadsheetId : option string) (range : string)
| SheetsValuesUpdate (spreadsheetId : option string) (range : string)
    (valueInputOption : string) (values : list (list string))
| SheetsValuesGet (spreadsheetId : option string) (range : string)
| CalendarEventsInsert (calendarId : string) (resource : calendar_resource)
| DriveFilesList (q fields spaces : string)
| DriveFilesCreate (resource : value) (fields : string)
| FileArrayBuffer
| GapiClientRequest (path method : string) (params : list (string * string))
    (headers : list (string * string)) (body : string)
| DateNow.                       (* Date.now(), answered by the runtime *)

(** What a request resolves with. *)
Inductive response : Type :=
| Resolved (res : value)
| Buffer (data : list Byte.byte).

Definition outcome : Type := response + error.

(** The requests of the client bootstrap. *)
Definition is_bootstrap (r : request) : bool :=
  match r with
  | AppendScript _ | GapiLoad _ | GapiClientInit _ _ | InitTokenClient _ _ => true
  | _ => false
  end.

Definition is_calendar_insert (r : request) : bool :=
  match r with
  | CalendarEventsInsert _ _ => true
  | _ => false
  end.

Definition is_sheet_update (r : request) : bool :=
  match r with
  | SheetsValuesUpdate _ _ _ _ => true
  | _ => false
  end.

Definition is_script_load (r : request) : bool :=
  match r with
  | AppendScript _ => true
  | _ => false
  end.

Definition is_client_init (r : request) : bool :=
  match r with
  | GapiClientInit _ _ => true
  | _ => false
  end.

Definition gs_prog : Type → Type := prog gs_state request response error.

#[local] Notation "x ← p ; q" := (bind p (fun x => q))
  (at level 20, p at level 100, q at level 200, right associativity,
   only parsing).
#[local] Notation "p ;; q" := (bind p (fun _ => q))
  (at level 100, q at level 200, right associativity, only parsing).

Definition set_gapiInited (b : bool) (s : gs_state) : gs_state :=
  GsState b (gisInited s) (tokenClient s) (accessToken s)
    (currentUserProfile s) (window_gapi s) (window_gis s) (gapi_client s).

Definition set_tokenClient (v : value) (s : gs_state) : gs_state :=
  GsState (gapiInited s) (gisInited s) v (accessToken s)
    (currentUserProfile s) (window_gapi s) (window_gis s) (gapi_client s).

Definition set_gisInited (b : bool) (s : gs_state) : gs_state :=
  GsState (gapiInited s) b (tokenClient s) (accessToken s)
    (currentUserProfile s) (window_gapi s) (window_gis s) (gapi_client s).

Definition set_window_gapi (b : bool) (s : gs_state) : gs_state :=
  GsState (gapiInited s) (gisInited s) (tokenClient s) (accessToken s)
    (currentUserProfile s) b (window_gis s) (gapi_client s).

Definition set_window_gis (b : bool) (s : gs_state) : gs_state :=
  GsState (gapiInited s) (gisInited s) (tokenClient s) (accessToken s)
    (currentUserProfile s) (window_gapi s) b (gapi_client s).

Definition set_gapi_client (b : bool) (s : gs_state) : gs_state :=
  GsState (gapiInited s) (gisInited s) (tokenClient s) (accessToken s)
    (currentUserProfile s) (window_gapi s) (window_gis s) b.

(** The requests that change what the page holds when they resolve. *)
Definition loads_library (r : request) : bool :=
  match r with
  | AppendScript _ | GapiLoad _ => true
  | _ => false
  end.

(** A script that loads defines its library's global, and
    [gapi.load("client")] defines [gapi.client]; nothing else that
    settles touches the module's state. *)
Definition settle (r : request) (o : outcome) (s : gs_state) : gs_state :=
  match r, o with
  | AppendScript src, inl _ =>
      if String.eqb src GAPI_SCRIPT then set_window_gapi true s
      else if String.eqb src GIS_SCRIPT then set_window_gis true s
      else s
  | GapiLoad libraries, inl _ =>
      if String.eqb libraries "client" then set_gapi_client true s else s
  | _, _ => s
  end.

(** What no bootstrap touches: the session. *)
Definition same_session (s s' : gs_state) : Prop :=
  accessToken s' = accessToken s ∧
  currentUserProfile s' = currentUserProfile s.

(** [res.result] and the like on what a request resolved with. *)
Definition field (res : response) (k : string) : gs_prog value :=
  match res with
  | Resolved v =>
      match get v k with
      | Some x => Ret x
      | None => Throw (TypeError ("Cannot read properties of " +:+ String_ v))
      end
  | Buffer _ => Ret VUndefined
  end.

Variable cfg : config.

(** ** Bootstrap *)

Definition loadGapiScript : gs_prog unit :=
  Get (fun s =>
    if window_gapi s then Ret tt
    else call (AppendScript GAPI_SCRIPT) ;; Ret tt).

Definition loadGisScript : gs_prog unit :=
  Get (fun s =>
    if window_gis s then Ret tt
    else call (AppendScript GIS_SCRIPT) ;; Ret tt).

Definition ensureGapiClient : gs_prog unit :=
  Get (fun s =>
    if gapiInited s then Ret tt
    else if negb (env_truthy (CLIENT_ID cfg)) || negb (env_truthy (API_KEY cfg))
    then Throw (Error_ "Missing CLIENT_ID or API_KEY")
    else
      await loadGapiScript ;;
      await (call (GapiLoad "client")) ;;
      try_catch
        (await (call (GapiClientInit (API_KEY cfg) DISCOVERY_DOCS)) ;;
         modify (set_gapiInited true))
        (fun err => Throw err)).

Definition ensureGisClient : gs_prog unit :=
  Get (fun s =>
    if gisInited s && truthy (tokenClient s) then Ret tt
    else
      await loadGisScript ;;
      if negb (env_truthy (CLIENT_ID cfg))
      then Throw (Error_ "Missing CLIENT_ID for GIS")
      else
        Invoke (InitTokenClient (CLIENT_ID cfg) SCOPES)
          (settled (fun client =>
             modify (set_tokenClient
                       match client with
                       | Resolved v => v
                       | Buffer _ => VUndefined
                       end) ;;
             modify (set_gisInited true)))).

Definition initClient : gs_prog bool :=
  try_catch
    (await ensureGapiClient ;;
     await ensureGisClient ;;
     Get (fun s => Ret (truthy (accessToken s))))
    (fun err => Ret false).

(** ** Sheets *)

Definition Array_isArray (v : value) : bool :=
  match v with
  | VArr _ => true
  | _ => false
  end.

(** [Array.isArray(dataArray) ? dataArray : []] *)
Definition array_items (dataArray : value) : list value :=
  match dataArray with
  | VArr l => l
  | _ => []
  end.

Definition SYNC_SUCCESS : value := VObj [("success", VBool true)].

Definition syncToSheet (sheetName : string) (dataArray : value)
    : gs_prog value :=
  await ensureGapiClient ;;
  let values := array_items dataArray in
  if decide (length values = 0%nat) then
    await (call (SheetsValuesClear (SPREADSHEET_ID cfg) (sheetName +:+ "!A:Z"))) ;;
    Ret SYNC_SUCCESS
  else
    let rows := sheet_rows values in
    await (call (SheetsValuesClear (SPREADSHEET_ID cfg) (sheetName +:+ "!A:Z"))) ;;
    res ← await (call (SheetsValuesUpdate (SPREADSHEET_ID cfg)
                         (sheetName +:+ "!A1") "RAW" rows)) ;
    field res "result".

Definition fetchSheetData (sheetName : string) : gs_prog value :=
  await ensureGapiClient ;;
  res ← await (call (SheetsValuesGet (SPREADSHEET_ID cfg) (sheetName +:+ "!A:Z"))) ;
  result ← field res "result" ;
  match get result "values" with
  | Some v => Ret (or_else v (VArr []))
  | None => Throw (TypeError "Cannot read properties of undefined (reading 'values')")
  end.

(** ** Calendar *)

Definition FALLBACK_TIME : string := "10:00".
Definition ONE_HOUR : Z := 60 * 60 * 1000.
Definition TIME_ZONE : string := "Asia/Taipei".
Definition LF : string := String "010"%char EmptyString.
Definition CRLF : string := String "013"%char LF.

(** [new Date(t)] keeps a time value only within the range of dates. *)
Definition TimeClip (t : Z) : option Z :=
  if decide (Z.abs t ≤ 8640000000000000)%Z then Some t else None.

(** [d.toISOString()], a [RangeError] on an invalid date. *)
Definition toISOString (d : option Z) : gs_prog string :=
  match d with
  | Some t => Ret (Date_toISOString t)
  | None => Throw (RangeError "Invalid time value")
  end.

Definition VALIDATION_ERROR : error := Error_ "Event title 和 date 為必填".

Definition event_description (type relatedId : value) : string :=
  if truthy type then
    "類型：" +:+ String_ type +:+
    (if truthy relatedId then LF +:+ "關聯ID：" +:+ String_ relatedId else "")
  else "".

Definition addToCalendar (event : value) : gs_prog value :=
  await ensureGapiClient ;;
  match get event "title", get event "date", get event "time" with
  | Some title, Some date, Some time =>
      if negb (truthy title) || negb (truthy date) then
        Throw VALIDATION_ERROR
      else
        let startDate :=
          Date_parse (String_ date +:+ " " +:+
                      String_ (or_else time (VStr FALLBACK_TIME))) in
        let endDate := startDate ≫= (fun t => TimeClip (t + ONE_HOUR)) in
        let description :=
          event_description (opt_get event "type") (opt_get event "relatedId") in
        startISO ← toISOString startDate ;
        endISO ← toISOString endDate ;
        res ← await (call (CalendarEventsInsert "primary"
                 (CalendarResource title description
                    (EventTime startISO TIME_ZONE)
                    (EventTime endISO TIME_ZONE)))) ;
        field res "result"
  | _, _, _ =>
      Throw (TypeError "Cannot destructure property 'title' of 'event'")
  end.

(** ** Drive *)

(** The [file] argument: a plain value has no callable [arrayBuffer]; a
    [File] or [Blob] has one, and a [name] and a [type]. *)
Inductive upload_file : Type :=
| PlainValue (v : value)
| BinaryFile (name type_ : value).

Definition MOCK_URL_PREFIX : string := "https://drive.google.com/file/d/mock-".
Definition FOLDER_MIME : string := "application/vnd.google-apps.folder".
Definition boundary : string := "-------314159265358979323846".

(** [now] is what [Date.now()] gave. *)
Definition MOCK_RESULT (now : value) : value :=
  VObj [ ("success", VBool true);
         ("url", VStr (MOCK_URL_PREFIX +:+ String_ now)) ].

Definition root_parents : list value :=
  match DRIVE_ROOT_FOLDER_ID cfg with
  | Some root => if env_truthy (Some root) then [VStr root] else []
  | None => []
  end.

Definition need (o : option value) : gs_prog value :=
  match o with
  | Some v => Ret v
  | None => Throw (TypeError "Cannot read properties of undefined")
  end.

(** Find the folder named [folderName] under the root, or create it.
    [result.files] is an array or absent, as the Drive API returns it. *)
Definition find_or_create_folder (folderName : value) : gs_prog value :=
  match DRIVE_ROOT_FOLDER_ID cfg with
  | Some root =>
      if env_truthy (Some root) then
        let q := String.concat " and "
          [ "mimeType='" +:+ FOLDER_MIME +:+ "'";
            "'" +:+ root +:+ "' in parents";
            "name='" +:+ String_ folderName +:+ "'";
            "trashed=false" ] in
        searchRes ← await (call (DriveFilesList q "files(id, name)" "drive")) ;
        result ← field searchRes "result" ;
        files ← need (get result "files") ;
        match files with
        | VArr (f :: _) => need (get f "id")
        | _ =>
            let folderMeta := VObj
              [ ("name", or_else folderName (VStr "未命名專案"));
                ("mimeType", VStr FOLDER_MIME);
                ("parents", VArr [VStr root]) ] in
            newFolderRes ← await (call (DriveFilesCreate folderMeta "id, name")) ;
            created ← field newFolderRes "result" ;
            need (get created "id")
        end
      else Ret VNull
  | None => Ret VNull
  end.

Definition uploadToDrive (file : upload_file) (folderName : value)
    : gs_prog value :=
  await ensureGapiClient ;;
  match file with
  | PlainValue _ =>
      Invoke DateNow
        (settled (fun now =>
           Ret (MOCK_RESULT match now with
                            | Resolved v => v
                            | Buffer _ => VUndefined
                            end)))
  | BinaryFile name type_ =>
      folderId ← find_or_create_folder folderName ;
      let metadata := VObj
        [ ("name", name);
          ("parents", VArr (if truthy folderId then [folderId]
                            else root_parents)) ] in
      let delimiter := CRLF +:+ "--" +:+ boundary +:+ CRLF in
      let closeDelimiter := CRLF +:+ "--" +:+ boundary +:+ "--" in
      data ← await (call FileArrayBuffer) ;
      let base64Data :=
        base64 match data with
               | Buffer bytes => bytes
               | Resolved _ => []
               end in
      match JSON_stringify metadata with
      | None => Throw (TypeError "Converting circular structure to JSON")
      | Some json =>
          let multipartBody :=
            delimiter +:+
            "Content-Type: application/json; charset=UTF-8" +:+ CRLF +:+ CRLF +:+
            json +:+
            delimiter +:+
            "Content-Type: " +:+
              String_ (or_else type_ (VStr "application/octet-stream")) +:+ CRLF +:+
            "Content-Transfer-Encoding: base64" +:+ CRLF +:+ CRLF +:+
            base64Data +:+
            closeDelimiter in
          res ← await (call (GapiClientRequest "/upload/drive/v3/files" "POST"
                   [("uploadType", "multipart")]
                   [("Content-Type", "multipart/related; boundary=" +:+ boundary)]
                   multipartBody)) ;
          field res "result"
      end
  end.

(** ** Bootstraps in flight

    What is left of [ensureGapiClient] after each of its [await]s, and
    the stages a call of it goes through once it has found the client
    not initialised. *)

Definition config_missing : bool :=
  negb (env_truthy (CLIENT_ID cfg)) || negb (env_truthy (API_KEY cfg)).

Definition finish_init : gs_prog unit :=
  try_catch (modify (set_gapiInited true)) (fun err => Throw err).

Definition init_client : gs_prog unit :=
  try_catch
    (await (call (GapiClientInit (API_KEY cfg) DISCOVERY_DOCS)) ;;
     modify (set_gapiInited true))
    (fun err => Throw err).

Definition load_client : gs_prog unit :=
  await (call (GapiLoad "client")) ;; init_client.

(** How many of the requests in [l] satisfy [f]. *)
Definition count (f : request → bool) (l : list request) : nat :=
  length (List.filter f l).

(** A suspended call goes on with [next] when its request resolves and
    throws when it is rejected. *)
Definition resumes_with (k : outcome → gs_prog unit) (next : gs_prog unit)
    : Prop :=
  (∀ v, k (inl v) = Yield next) ∧ (∀ e, k (inr e) = Throw e).

(** [phase sc ic t]: the call [t] has issued [sc] script loads and [ic]
    client initialisations so far. *)
Inductive phase
    : nat → nat → task gs_state request response error unit → Prop :=
| ph_script i k :
    resumes_with k load_client →
    phase 1 0 (Waiting i (AppendScript GAPI_SCRIPT) k)
| ph_loaded sc : phase sc 0 (Ready load_client)
| ph_load sc i k :
    resumes_with k init_client →
    phase sc 0 (Waiting i (GapiLoad "client") k)
| ph_library sc : phase sc 0 (Ready init_client)
| ph_init sc i k :
    resumes_with k finish_init →
    phase sc 1 (Waiting i (GapiClientInit (API_KEY cfg) DISCOVERY_DOCS) k)
| ph_inited sc : phase sc 1 (Ready finish_init)
| ph_done sc : phase sc 1 (Finished (Returned tt))
| ph_failed sc ic e : phase sc ic (Finished (Thrown e)).

(** The first call alone: it has loaded the script once, and the client
    is not initialised for as long as the call is not over. *)
Definition one_call (w0 : world gs_state request)
    (sys : system gs_state request response error unit) : Prop :=
  ∃ t ic news,
    pool sys = [t] ∧ phase 1 ic t ∧
    trace (shared sys) = (trace w0 ++ news)%list ∧
    count is_script_load news = 1%nat ∧ count is_client_init news = ic ∧
    ((∀ r, t ≠ Finished r) → gapiInited (state_of (shared sys)) = false).

(** Both calls in flight, the second having issued [sc] script loads. *)
Definition two_calls (w0 : world gs_state request) (sc : nat)
    (sys : system gs_state request response error unit) : Prop :=
  ∃ t0 t1 ic0 ic1 news,
    pool sys = [t0; t1] ∧ phase 1 ic0 t0 ∧ phase sc ic1 t1 ∧
    trace (shared sys) = (trace w0 ++ news)%list ∧
    count is_script_load news = (1 + sc)%nat ∧
    count is_client_init news = (ic0 + ic1)%nat.

End Service.

(* ================================================================= *)
(** * The token-exchange relay ([handler]) *)

(** [process.env] of the serverless function. *)
Record process_env := ProcessEnv {
  GOOGLE_CLIENT_ID : option string;
  GOOGLE_CLIENT_SECRET : option string;
}.

Definition TOKEN_URL : string := "https://oauth2.googleapis.com/token".

Definition allowlist : list string :=
  [ "http://localhost:5173";
    "http://localhost:5174";
    "https://senteng-design-system.vercel.app" ].

Section Relay.
Context `{Numbers}.

Record http_request := HttpRequest {
  method : string;                 (* req.method *)
  origin_header : option string;   (* req.headers.origin *)
  body : value;                    (* req.body *)
}.

(** The [res] object as the handler leaves it. *)
Record http_response := HttpResponse {
  headers : gmap string string;
  status : option Z;
  payload : option value;          (* the JSON sent, if any *)
  ended : bool;
}.

Definition fresh_response : http_response := HttpResponse ∅ None None false.

Inductive relay_request : Type :=
| Fetch (url method_ : string) (headers_ : list (string * string))
    (params : list (string * string))
| ResponseJson.                    (* r.json() *)

Inductive relay_response : Type :=
| HttpResult (ok : bool) (status_ : Z)
| JsonBody (data : value).

Definition relay_prog : Type → Type :=
  prog http_response relay_request relay_response error.

#[local] Notation "x ← p ; q" := (bind p (fun x => q))
  (at level 20, p at level 100, q at level 200, right associativity,
   only parsing).
#[local] Notation "p ;; q" := (bind p (fun _ => q))
  (at level 100, q at level 200, right associativity, only parsing).

Definition setHeader (name v : string) : relay_prog unit :=
  modify (fun res =>
    HttpResponse (<[name := v]> (headers res)) (status res) (payload res)
      (ended res)).

(** [res.status(code).json(data)] *)
Definition status_json (code : Z) (data : value) : relay_prog unit :=
  modify (fun res => HttpResponse (headers res) (Some code) (Some data) true).

(** [res.status(code).end()] *)
Definition status_end (code : Z) : relay_prog unit :=
  modify (fun res => HttpResponse (headers res) (Some code) (payload res) true).

(** [e?.message || String(e)] *)
Definition name_and_message (name message : string) : value :=
  VStr (if decide (message = "") then name else message).

Definition error_description (e : error) : value :=
  match e with
  | Error_ m => name_and_message "Error" m
  | TypeError m => name_and_message "TypeError" m
  | RangeError m => name_and_message "RangeError" m
  | Rejection v => or_else (opt_get v "message") (VStr (String_ v))
  end.

Definition error_body (code description : value) : value :=
  VObj [("error", code); ("error_description", description)].

Variable penv : process_env.

Definition exchange (code codeVerifier redirectUri : value)
    (clientId clientSecret : string) : relay_prog unit :=
  let params :=
    [ ("client_id", clientId);
      ("client_secret", clientSecret);
      ("code", String_ code);
      ("code_verifier", String_ codeVerifier);
      ("grant_type", "authorization_code");
      ("redirect_uri", String_ redirectUri) ] in
  r ← await (call (Fetch TOKEN_URL "POST"
         [("Content-Type", "application/x-www-form-urlencoded")] params)) ;
  match r with
  | HttpResult ok code_ =>
      parsed ← await (call ResponseJson) ;
      let data := match parsed with
                  | JsonBody d => d
                  | HttpResult _ _ => VUndefined
                  end in
      if negb ok then status_json code_ data else status_json 200 data
  | JsonBody _ => Throw (TypeError "r.json is not a function")
  end.

Definition handler (req : http_request) : relay_prog unit :=
  let origin := match origin_header req with
                | Some o => o
                | None => ""
                end in
  (if decide (origin ∈ allowlist) then
     setHeader "Access-Control-Allow-Origin" origin ;;
     setHeader "Vary" "Origin"
   else Ret tt) ;;
  setHeader "Access-Control-Allow-Methods" "POST, OPTIONS" ;;
  setHeader "Access-Control-Allow-Headers" "Content-Type" ;;
  if decide (method req = "OPTIONS") then status_end 204
  else if decide (method req ≠ "POST") then
    status_json 405 (VObj [("error", VStr "method_not_allowed")])
  else
    try_catch
      (let b := or_else (body req) (VObj []) in
       let code := opt_get b "code" in
       let codeVerifier := opt_get b "codeVerifier" in
       let redirectUri := opt_get b "redirectUri" in
       if negb (truthy code) || negb (truthy codeVerifier)
          || negb (truthy redirectUri)
       then
         status_json 400
           (error_body (VStr "invalid_request")
              (VStr "Missing code / codeVerifier / redirectUri"))
       else
         match GOOGLE_CLIENT_ID penv, GOOGLE_CLIENT_SECRET penv with
         | Some clientId, Some clientSecret =>
             if env_truthy (Some clientId) && env_truthy (Some clientSecret)
             then exchange code codeVerifier redirectUri clientId clientSecret
             else
               status_json 500
                 (error_body (VStr "server_misconfigured")
                    (VStr "Missing GOOGLE_CLIENT_ID or GOOGLE_CLIENT_SECRET"))
         | _, _ =>
             status_json 500
               (error_body (VStr "server_misconfigured")
                  (VStr "Missing GOOGLE_CLIENT_ID or GOOGLE_CLIENT_SECRET"))
         end)
      (fun e =>
         status_json 500 (error_body (VStr "server_error") (error_description e))).



Definition INVALID_REQUEST : value :=
  error_body (VStr "invalid_request")
    (VStr "Missing code / codeVerifier / redirectUri").

Definition SERVER_MISCONFIGURED : value :=
  error_body (VStr "server_misconfigured")
    (VStr "Missing GOOGLE_CLIENT_ID or GOOGLE_CLIENT_SECRET").

(** The headers set before the method is looked at. *)
Definition with_cors (req : http_request) (res : http_response)
    : gmap string string :=
  let origin := default "" (origin_header req) in
  <["Access-Control-Allow-Headers" := "Content-Type"]>
    (<["Access-Control-Allow-Methods" := "POST, OPTIONS"]>
       (if decide (origin ∈ allowlist)
        then <["Vary" := "Origin"]>
               (<["Access-Control-Allow-Origin" := origin]> (headers res))
        else headers res)).

(** Nothing that settles changes [res]. *)
Definition relay_settle (r : relay_request) (o : relay_response + error)
    (res : http_response) : http_response := res.

End Relay.

(* ================================================================= *)
(** * The rest of the facade and of the page

    The operations of [googleService.js] and the pure steps of [App.jsx]
    that stand beside the ones above: [createDriveFolder], the sign-in
    flow ([login], [logout], [getUser]), the mapping of calendar events
    in [loadAllData] and the grouping [eventsByDate]. *)

Section Page.
Context `{Numbers}.

(** The keys of a list in order of first appearance, said directly. *)
Fixpoint first_occurrences (keys : list string) : list string :=
  match keys with
  | [] => []
  | k :: rest => k :: filter (fun k' => k' ≠ k) (first_occurrences rest)
  end.

(** An object whose fields all hold text, such as a record read from a
    sheet. *)
Definition record_of (fields : list (string * string)) : value :=
  VObj (List.map (fun kv => (fst kv, VStr (snd kv))) fields).

(** ** Calendar events as the page shows them ([loadAllData]) *)

Definition UNTITLED : string := "(未命名行程)".

(** [v.slice(from, to)] with bounds that are not negative: a string and
    an array have the method, anything else gives a [TypeError]
    ([None]). Positions in a string count bytes here and UTF-16 code
    units in JavaScript, which is the same on ASCII text such as a
    date. *)
Definition slice (v : value) (from to : nat) : option value :=
  match v with
  | VStr s => Some (VStr (String.substring from (to - from) s))
  | VArr l => Some (VArr (take (to - from) (drop from l)))
  | _ => None
  end.

(** The callback of [.map]: the outer [None] is a [TypeError], the inner
    one the [null] returned for an event without a date. *)
Definition calendar_entry (evt : value) : option (option value) :=
  match get evt "start" with
  | None => None
  | Some start0 =>
      let start := or_else start0 (VObj []) in
      let dateTime := opt_get start "dateTime" in
      let date :=
        if truthy (opt_get start "date") then Some (opt_get start "date")
        else if truthy dateTime then slice dateTime 0 10
        else Some VUndefined in
      let time :=
        if truthy dateTime then slice dateTime 11 16 else Some (VStr "") in
      match date, time with
      | Some date, Some time =>
          if truthy date then
            Some (Some (VObj [ ("id", opt_get evt "id");
                               ("title", or_else (opt_get evt "summary")
                                           (VStr UNTITLED));
                               ("date", date);
                               ("time", time) ]))
          else Some None
      | _, _ => None
      end
  end.

Fixpoint map_entries (events : list value) : option (list (option value)) :=
  match events with
  | [] => Some []
  | evt :: rest =>
      match calendar_entry evt with
      | Some entry =>
          match map_entries rest with
          | Some entries => Some (entry :: entries)
          | None => None
          end
      | None => None
      end
  end.

(** [(calendarEvents || []).map(...).filter(Boolean)] *)
Definition calendar_entries (calendarEvents : value) : option (list value) :=
  match or_else calendarEvents (VArr []) with
  | VArr events =>
      match map_entries events with
      | Some entries => Some (omap id entries)
      | None => None
      end
  | _ => None
  end.

(** What [calendar_entry] keeps: a record of four fields with a usable
    title and date. *)
Definition shown (entry : value) : Prop :=
  ∃ id title date time,
    entry = VObj [("id", id); ("title", title); ("date", date); ("time", time)]
    ∧ truthy title = true ∧ truthy date = true.

(** ** Events by day ([eventsByDate]) *)

(** The properties every object inherits from [Object.prototype]; each
    holds a function or an object, none of them an array. *)
Definition Object_prototype : list string :=
  [ "constructor"; "__defineGetter__"; "__defineSetter__"; "hasOwnProperty";
    "__lookupGetter__"; "__lookupSetter__"; "isPrototypeOf";
    "propertyIsEnumerable"; "toString"; "valueOf"; "__proto__";
    "toLocaleString" ].

Definition inherited (k : string) : bool :=
  existsb (String.eqb k) Object_prototype.

(** One step of the [reduce]; [None] is a [TypeError]: that of [evt.date]
    on [null] or [undefined], or that of [acc[key].push] when [acc[key]]
    is an inherited property, which is truthy and has no [push]. *)
Definition group_event (acc : gmap string (list value)) (evt : value)
    : option (gmap string (list value)) :=
  match get evt "date" with
  | None => None
  | Some key =>
      if truthy key then
        if inherited (String_ key) then None
        else
          Some (<[String_ key :=
                    (default [] (acc !! String_ key) ++ [evt])%list]> acc)
      else Some acc
  end.

Fixpoint group_events (acc : gmap string (list value)) (events : list value)
    : option (gmap string (list value)) :=
  match events with
  | [] => Some acc
  | evt :: rest =>
      match group_event acc evt with
      | Some acc' => group_events acc' rest
      | None => None
      end
  end.

(** [(events || []).reduce(..., {})] *)
Definition eventsByDate (events : value) : option (gmap string (list value)) :=
  match or_else events (VArr []) with
  | VArr l => group_events ∅ l
  | _ => None
  end.

(** The events of [l] shown on day [k]. *)
Definition on_day (k : string) (l : list value) : list value :=
  List.filter (fun evt => truthy (opt_get evt "date")
                          && String.eqb (String_ (opt_get evt "date")) k) l.

End Page.

Section Folders.
Context `{Builtins}.
Variable cfg : config.

#[local] Notation "x ← p ; q" := (bind p (fun x => q))
  (at level 20, p at level 100, q at level 200, right associativity,
   only parsing).
#[local] Notation "p ;; q" := (bind p (fun _ => q))
  (at level 100, q at level 200, right associativity, only parsing).

Definition folder_metadata (clientName : value) : value :=
  VObj [ ("name", or_else clientName (VStr "未命名客戶"));
         ("mimeType", VStr FOLDER_MIME);
         ("parents", VArr (root_parents cfg)) ].

Definition createDriveFolder (clientName : value) : gs_prog value :=
  await (ensureGapiClient cfg) ;;
  res ← await (call (DriveFilesCreate (folder_metadata clientName)
                       "id, name, webViewLink")) ;
  result ← field res "result" ;
  need (get result "webViewLink").






End Folders.

(** ** Signing in and out *)

Section Session.
Context `{Builtins}.
Variable cfg : config.

(** The requests of the sign-in flow, beside those of the service. *)
Inductive session_request : Type :=
| Service (r : request)
| RequestAccessToken (prompt : string)   (* answered through the callback *)
| SetToken (token : value)               (* gapi.client.setToken(token) *)
| UserInfo (path : string)               (* gapi.client.request({ path }) *)
| Revoke (token : value).                (* oauth2.revoke(token, ...) *)

Definition session_prog : Type → Type :=
  prog gs_state session_request response error.

#[local] Notation "x ← p ; q" := (bind p (fun x => q))
  (at level 20, p at level 100, q at level 200, right associativity,
   only parsing).
#[local] Notation "p ;; q" := (bind p (fun _ => q))
  (at level 100, q at level 200, right associativity, only parsing).

(** A program of the service, run among the requests of the session. *)
Fixpoint lift {A} (p : prog gs_state request response error A)
    : session_prog A :=
  match p with
  | Ret a => Ret a
  | Throw e => Throw e
  | Get k => Get (fun s => lift (k s))
  | Put s k => Put s (lift k)
  | Await r k => Await (Service r) (fun o => lift (k o))
  | Invoke r k => Invoke (Service r) (fun o => lift (k o))
  | Yield k => Yield (lift k)
  end.

Definition session_settle (r : session_request) (o : outcome) (s : gs_state)
    : gs_state :=
  match r with
  | Service r' => settle r' o s
  | _ => s
  end.

(** How the service sees an environment of the session. *)
Definition service_env (env : nat → session_request → outcome)
    : nat → request → outcome :=
  fun n r => env n (Service r).

Definition is_service (r : session_request) : bool :=
  match r with
  | Service _ => true
  | _ => false
  end.

Definition set_accessToken (v : value) (s : gs_state) : gs_state :=
  GsState (gapiInited s) (gisInited s) (tokenClient s) v
    (currentUserProfile s) (window_gapi s) (window_gis s) (gapi_client s).

Definition set_currentUserProfile (v : value) (s : gs_state) : gs_state :=
  GsState (gapiInited s) (gisInited s) (tokenClient s) (accessToken s)
    v (window_gapi s) (window_gis s) (gapi_client s).

Definition USERINFO_PATH : string :=
  "https://openidconnect.googleapis.com/v1/userinfo".

Definition EMPTY_PROFILE : value :=
  VObj [("name", VStr ""); ("email", VStr ""); ("photo", VStr "")].

Definition profile_of (result : value) : value :=
  VObj [ ("name", or_else (opt_get result "name") (VStr ""));
         ("email", or_else (opt_get result "email") (VStr ""));
         ("photo", or_else (opt_get result "picture") (VStr "")) ].

Definition resolved_value (r : response) : value :=
  match r with
  | Resolved v => v
  | Buffer _ => VUndefined
  end.

(** How the promise [login] returns ends, when the call does not reject:
    it resolves, or it stays pending because the token callback threw. *)
Inductive settlement : Type :=
| Resolves (profile : value)
| Pending.

(** [tokenClient.callback] *)
Definition token_callback (tokenResponse : value) : session_prog settlement :=
  match get tokenResponse "error" with
  | None => Ret Pending
  | Some err =>
      if truthy err then Throw (Rejection tokenResponse)
      else
        let token := opt_get tokenResponse "access_token" in
        modify (set_accessToken token) ;;
        Invoke (SetToken (VObj [("access_token", token)]))
          (fun o =>
             match o with
             | inr _ => Ret Pending
             | inl _ =>
                 try_catch
                   (userRes ← await (call (UserInfo USERINFO_PATH)) ;
                    result ← lift (field userRes "result") ;
                    let profile := profile_of (or_else result (VObj [])) in
                    modify (set_currentUserProfile profile) ;;
                    Ret (Resolves profile))
                   (fun userErr =>
                      modify (set_currentUserProfile EMPTY_PROFILE) ;;
                      Ret (Resolves EMPTY_PROFILE))
             end)
  end.

(** The token client is the object [initTokenClient] returned; on
    anything else setting the callback or requesting the token throws,
    which the [catch] turns into a rejection. *)
Definition login : session_prog settlement :=
  await (lift (ensureGapiClient cfg)) ;;
  await (lift (ensureGisClient cfg)) ;;
  Get (fun s =>
    match tokenClient s with
    | VObj _ =>
        Await (RequestAccessToken "consent")
          (fun o =>
             match o with
             | inl tokenResponse => token_callback (resolved_value tokenResponse)
             | inr e => Throw e
             end)
    | _ => Throw (TypeError "tokenClient.requestAccessToken is not a function")
    end).

Definition clear_session (s : gs_state) : gs_state :=
  set_currentUserProfile VNull (set_accessToken VNull s).

(** [window.gapi?.client?.setToken(null)] calls nothing unless
    [window.gapi] and [window.gapi.client] are both there. *)
Definition logout : session_prog unit :=
  Get (fun s =>
    try_catch
      (if truthy (accessToken s) && window_gis s
       then Invoke (Revoke (accessToken s)) (settled (fun _ => Ret tt))
       else Ret tt)
      (fun e => Ret tt) ;;
    modify clear_session ;;
    Get (fun s' =>
      if window_gapi s' && gapi_client s'
      then Invoke (SetToken VNull) (settled (fun _ => Ret tt))
      else Ret tt)).

Definition getUser : session_prog value :=
  Get (fun s => Ret (currentUserProfile s)).

End Session.

(* ================================================================= *)
(** * A reference runtime

    One concrete choice of the built-ins, used to run the definitions on
    examples: integer numbers, [JSON.stringify] on trees of values, dates
    in the format [YYYY-MM-DD HH:MM] read as local time at UTC+8, and
    standard base64. *)

Module Reference.

#[export] Instance numbers : Numbers := {|
  number := Z;
  number_truthy := fun n => negb (n =? 0)%Z;
  Number_toString := pretty;
  number_of_nat := Z.of_nat;
|}.

(** *** JSON text *)

Definition hex_digit (n : N) : ascii :=
  match String.get (N.to_nat n) "0123456789abcdef" with
  | Some c => c
  | None => "0"%char
  end.

Definition DQ : string := String "034"%char EmptyString.

Definition json_char (c : ascii) : string :=
  let n := N_of_ascii c in
  if (n =? 34)%N then "\" +:+ DQ
  else if (n =? 92)%N then "\\"
  else if (n =? 8)%N then "\b"
  else if (n =? 9)%N then "\t"
  else if (n =? 10)%N then "\n"
  else if (n =? 12)%N then "\f"
  else if (n =? 13)%N then "\r"
  else if (n <? 32)%N then
    "\u00" +:+ String (hex_digit (n / 16)) (String (hex_digit (n mod 16)) "")
  else String c "".

Definition json_quote (s : string) : string :=
  DQ +:+ String.concat "" (List.map json_char (list_ascii_of_string s)) +:+ DQ.

Fixpoint json (v : value) : string :=
  match v with
  | VUndefined | VNull => "null"
  | VBool true => "true"
  | VBool false => "false"
  | VNum n => pretty n
  | VStr s => json_quote s
  | VArr l => "[" +:+ String.concat "," (List.map json l) +:+ "]"
  | VObj fs =>
      "{" +:+
      String.concat ","
        (List.flat_map
           (fun kv => match snd kv with
                      | VUndefined => []
                      | _ => [json_quote (fst kv) +:+ ":" +:+ json (snd kv)]
                      end) fs) +:+
      "}"
  end.

(** *** Dates *)

Definition days_from_civil (y m d : Z) : Z :=
  let y' := if (m <=? 2)%Z then (y - 1)%Z else y in
  let era := (y' / 400)%Z in
  let yoe := (y' - era * 400)%Z in
  let doy := ((153 * (m + (if (2 <? m)%Z then -3 else 9)) + 2) / 5 + d - 1)%Z in
  let doe := (yoe * 365 + yoe / 4 - yoe / 100 + doy)%Z in
  (era * 146097 + doe - 719468)%Z.

Definition civil_from_days (z : Z) : Z * Z * Z :=
  let z' := (z + 719468)%Z in
  let era := (z' / 146097)%Z in
  let doe := (z' - era * 146097)%Z in
  let yoe := ((doe - doe / 1460 + doe / 36524 - doe / 146096) / 365)%Z in
  let doy := (doe - (365 * yoe + yoe / 4 - yoe / 100))%Z in
  let mp := ((5 * doy + 2) / 153)%Z in
  let d := (doy - (153 * mp + 2) / 5 + 1)%Z in
  let m := if (mp <? 10)%Z then (mp + 3)%Z else (mp - 9)%Z in
  let y := (yoe + era * 400 + (if (m <=? 2)%Z then 1 else 0))%Z in
  (y, m, d).

Definition digit (c : ascii) : option Z :=
  let n := Z.of_N (N_of_ascii c) in
  if ((48 <=? n) && (n <=? 57))%Z then Some (n - 48)%Z else None.

Fixpoint digits (acc : Z) (cs : list ascii) : option Z :=
  match cs with
  | [] => Some acc
  | c :: rest =>
      match digit c with
      | Some d => digits (acc * 10 + d)%Z rest
      | None => None
      end
  end.

Definition number_at (s : string) (from len : nat) : option Z :=
  let cs := list_ascii_of_string (String.substring from len s) in
  if decide (length cs = len) then digits 0 cs else None.

Definition UTC_OFFSET_MINUTES : Z := 480.

Definition parse_local (s : string) : option Z :=
  if decide (String.length s = 16%nat) then
    match number_at s 0 4, number_at s 5 2, number_at s 8 2,
          number_at s 11 2, number_at s 14 2 with
    | Some y, Some m, Some d, Some hh, Some mm =>
        if decide (String.substring 4 1 s = "-" ∧ String.substring 7 1 s = "-" ∧
                   String.substring 10 1 s = " " ∧ String.substring 13 1 s = ":" ∧
                   (1 ≤ m ≤ 12)%Z ∧ (1 ≤ d ≤ 31)%Z ∧ (hh ≤ 23)%Z ∧ (mm ≤ 59)%Z)
        then
          Some (((days_from_civil y m d * 24 + hh) * 60 + mm
                 - UTC_OFFSET_MINUTES) * 60000)%Z
        else None
    | _, _, _, _, _ => None
    end
  else None.

Definition pad (width : nat) (s : string) : string :=
  String.concat "" (repeat "0" (width - String.length s)) +:+ s.

Definition pad_Z (width : nat) (n : Z) : string := pad width (pretty n).

Definition iso_string (t : Z) : string :=
  let days := (t / 86400000)%Z in
  let ms := (t mod 86400000)%Z in
  let '(y, m, d) := civil_from_days days in
  pad_Z 4 y +:+ "-" +:+ pad_Z 2 m +:+ "-" +:+ pad_Z 2 d +:+ "T" +:+
  pad_Z 2 (ms / 3600000) +:+ ":" +:+ pad_Z 2 (ms / 60000 mod 60) +:+ ":" +:+
  pad_Z 2 (ms / 1000 mod 60) +:+ "." +:+ pad_Z 3 (ms mod 1000) +:+ "Z".

(** *** base64 *)

Definition b64_char (n : N) : string :=
  match String.get (N.to_nat n)
    "ABCDEFGHIJKLMNOPQRSTUVWXYZabcdefghijklmnopqrstuvwxyz0123456789+/" with
  | Some c => String c ""
  | None => ""
  end.

Fixpoint b64 (bytes : list N) : string :=
  match bytes with
  | [] => ""
  | [a] =>
      b64_char (a / 4) +:+ b64_char (a mod 4 * 16) +:+ "=="
  | [a; b] =>
      b64_char (a / 4) +:+ b64_char (a mod 4 * 16 + b / 16) +:+
      b64_char (b mod 16 * 4) +:+ "="
  | a :: b :: c :: rest =>
      b64_char (a / 4) +:+ b64_char (a mod 4 * 16 + b / 16) +:+
      b64_char (b mod 16 * 4 + c / 64) +:+ b64_char (c mod 64) +:+ b64 rest
  end%N.

#[export] Instance builtins : Builtins := {|
  JSON_stringify := fun v => Some (json v);
  Date_parse := parse_local;
  Date_toISOString := iso_string;
  base64 := fun bytes => b64 (List.map Byte.to_N bytes);
|}.

(** *** Inputs for the examples *)

Definition configured : config :=
  Config (Some "client-id") (Some "api-key") (Some "sheet-id") None.

Definition unconfigured : config := Config None None None None.

(** The page as first loaded: nothing initialised, no library present. *)
Definition cold : world gs_state request :=
  World (GsState false false VNull VNull VNull false false false) [].

(** The client initialised by an earlier call. *)
Definition warm : world gs_state request :=
  World (GsState true false VNull VNull VNull true false true) [].

(** Every request resolves. *)
Definition all_resolve : nat → request → outcome :=
  fun _ _ => inl (Resolved (VObj [("result", VObj [])])).

Definition relay_unused : nat → relay_request → relay_response + error :=
  fun _ _ => inr (Error_ "unreachable").

(** Two bootstraps begun together; the first is then run to its end, and
    the second after it. *)
Definition twice_at_once : list (sched gs_state request response error unit) :=
  [Spawn (ensureGapiClient configured); Spawn (ensureGapiClient configured)]
  ++ repeat (Step 0) 6 ++ repeat (Step 1) 6.


End Reference.

(** ** Further inputs for the examples *)

Module Scenarios.
Import Reference.



(** Every request resolves, and the clock shows a fixed instant. *)
Definition clock_reads : nat → request → outcome :=
  fun n r =>
    match r with
    | DateNow => inl (Resolved (VNum 1700000000000%Z))
    | _ => all_resolve n r
    end.

(** The events of a month: one with a time, one for the whole day, one
    without a start. *)
Definition month : value :=
  VArr [ VObj [ ("id", VStr "e1"); ("summary", VStr "丈量");
                ("start", VObj [("dateTime", VStr "2025-06-01T10:00:00+08:00")]) ];
         VObj [ ("id", VStr "e2");
                ("start", VObj [("date", VStr "2025-06-01")]) ];
         VObj [ ("id", VStr "e3"); ("summary", VStr "待定") ] ].

(** What the page keeps of [month]. *)
Definition month_shown : list value :=
  [ VObj [ ("id", VStr "e1"); ("title", VStr "丈量");
           ("date", VStr "2025-06-01"); ("time", VStr "10:00") ];
    VObj [ ("id", VStr "e2"); ("title", VStr UNTITLED);
           ("date", VStr "2025-06-01"); ("time", VStr "") ] ].

(** The relay with its credentials, a complete request and a preflight
    from an origin that is not allowed. *)
Definition relay_configured : process_env :=
  ProcessEnv (Some "client-id") (Some "client-secret").


Definition preflight : http_request :=
  HttpRequest "OPTIONS" (Some "https://elsewhere.example") VUndefined.

Definition arrival : world http_response relay_request :=
  World fresh_response [].



(** A page on which both clients are initialised, and one just opened. *)
Definition ready : world gs_state session_request :=
  World (GsState true true (VObj []) VNull VNull true true true) [].

Definition first_visit : world gs_state session_request :=
  World (state_of cold) [].

Definition granted : value := VObj [("access_token", VStr "ya29.token")].
Definition denied : value := VObj [("error", VStr "access_denied")].
Definition userinfo : value :=
  VObj [("result", VObj [("name", VStr "Lin"); ("email", VStr "lin@example.com")])].

(** The user consents and the profile is served. *)
Definition consent_granted : nat → session_request → outcome :=
  fun n r =>
    match r with
    | Service r' => all_resolve n r'
    | RequestAccessToken _ => inl (Resolved granted)
    | UserInfo _ => inl (Resolved userinfo)
    | _ => inl (Resolved VUndefined)
    end.

(** The user declines. *)
Definition consent_denied : nat → session_request → outcome :=
  fun n r =>
    match r with
    | RequestAccessToken _ => inl (Resolved denied)
    | _ => consent_granted n r
    end.

(** The user consents, and the profile cannot be fetched. *)
Definition userinfo_down : nat → session_request → outcome :=
  fun n r =>
    match r with
    | UserInfo _ => inr (Error_ "403")
    | _ => consent_granted n r
    end.

End Scenarios.

(* ================================================================= *)
(** * Properties of the sheet mapper *)

Section MapperFacts.
Context `{Builtins}.

(** ** The header written by [syncToSheet] *)

Lemma set_add_elem acc k x : x ∈ set_add acc k ↔ x ∈ acc ∨ x = k.
Proof.
  unfold set_add. case_decide as Hin.
  - split; [tauto | intros [?| ->]; assumption].
  - rewrite elem_of_app, list_elem_of_singleton. tauto.
Qed.

Lemma set_add_NoDup acc k : NoDup acc → NoDup (set_add acc k).
Proof.
  intros Hnd. unfold set_add. case_decide as Hin; [assumption|].
  apply NoDup_app. split; [assumption|]. split.
  - intros x Hx Hk. apply list_elem_of_singleton in Hk. subst. contradiction.
  - apply NoDup_singleton.
Qed.

Lemma foldl_set_add_elem keys : ∀ acc x,
  x ∈ foldl set_add acc keys ↔ x ∈ acc ∨ x ∈ keys.
Proof.
  induction keys as [|k keys IH]; intros acc x; simpl.
  - rewrite elem_of_nil. tauto.
  - rewrite IH, set_add_elem, elem_of_cons. tauto.
Qed.

Lemma foldl_set_add_NoDup keys : ∀ acc,
  NoDup acc → NoDup (foldl set_add acc keys).
Proof.
  induction keys as [|k keys IH]; intros acc Hnd; simpl; [assumption|].
  apply IH, set_add_NoDup, Hnd.
Qed.

Lemma Array_from_Set_elem keys x : x ∈ Array_from_Set keys ↔ x ∈ keys.
Proof.
  unfold Array_from_Set. rewrite foldl_set_add_elem, elem_of_nil. tauto.
Qed.

Lemma Array_from_Set_NoDup keys : NoDup (Array_from_Set keys).
Proof. apply foldl_set_add_NoDup, NoDup_nil_2. Qed.

Lemma allKeys_NoDup values : NoDup (allKeys values).
Proof. apply Array_from_Set_NoDup. Qed.

(** A key is in the header exactly when some item has it. *)
Lemma allKeys_elem values k :
  k ∈ allKeys values ↔ ∃ item, item ∈ values ∧ k ∈ item_keys item.
Proof.
  unfold allKeys. rewrite Array_from_Set_elem, list_elem_of_In, in_flat_map.
  split; intros (item & Hi & Hk); exists item;
    rewrite ?list_elem_of_In in *; auto.
Qed.

Lemma sheet_row_lookup keys item j k :
  keys !! j = Some k → sheet_row keys item !! j = Some (cell (opt_get item k)).
Proof.
  intros Hj. unfold sheet_row.
  change (List.map ?f ?l) with (f <$> l).
  rewrite list_lookup_fmap, Hj. reflexivity.
Qed.

(** ** The object read from one row *)

Lemma fill_object_absent header : ∀ i row obj k,
  k ∉ header ∨ k = "" ∨ k = "__proto__" →
  fill_object header i row obj !! k = obj !! k.
Proof.
  induction header as [|key rest IH]; intros i row obj k Hk; simpl;
    [reflexivity|].
  rewrite IH.
  - case_decide as Hkey; [reflexivity|].
    case_decide as Hproto; [reflexivity|].
    apply lookup_insert_ne. intros ->.
    destruct Hk as [Hk|[->| ->]]; [|contradiction|contradiction].
    apply Hk, list_elem_of_here.
  - destruct Hk as [Hk|Hk]; [left|right; assumption].
    intros Hin. apply Hk. now apply list_elem_of_further.
Qed.

Lemma fill_object_present header : ∀ i row obj j k,
  NoDup header → header !! j = Some k → k ≠ "" → k ≠ "__proto__" →
  fill_object header i row obj !! k = Some (default "" (row !! (i + j)%nat)).
Proof.
  induction header as [|key rest IH]; intros i row obj j k Hnd Hj Hk Hp;
    [discriminate|].
  apply NoDup_cons in Hnd as [Hnotin Hnd]. simpl.
  destruct j as [|j]; simpl in Hj.
  - injection Hj as ->. rewrite fill_object_absent by (left; assumption).
    rewrite !decide_False by assumption.
    rewrite lookup_insert_eq, Nat.add_0_r. reflexivity.
  - rewrite (IH (S i) row _ j k Hnd Hj Hk Hp).
    replace (S i + j)%nat with (i + S j)%nat by lia. reflexivity.
Qed.

Lemma has_id_spec (obj : gmap string string) :
  has_id obj = true ↔ ∃ s, obj !! "id" = Some s ∧ s ≠ "".
Proof.
  unfold has_id. destruct (obj !! "id") as [s|].
  - destruct (String.eqb_spec s ""); simpl; split.
    + discriminate.
    + intros (s' & [= <-] & Hs). contradiction.
    + intros _. eauto.
    + reflexivity.
  - split; [discriminate | intros (s & [=] & _)].
Qed.

Lemma synthesized_id_nonempty sheetName idx : synthesized_id sheetName idx ≠ "".
Proof.
  unfold synthesized_id. destruct sheetName; discriminate.
Qed.

Lemma synthesized_id_inj sheetName i j :
  synthesized_id sheetName i = synthesized_id sheetName j → i = j.
Proof.
  unfold synthesized_id. intros Heq.
  apply String.app_inj in Heq. apply String.app_inj in Heq.
  apply pretty_nat_inj in Heq. lia.
Qed.

(** Every object read carries a non-empty [id]: its own, or the one made
    from its position. *)
Lemma row_to_object_id header sheetName idx row :
  let source := fill_object header 0 row ∅ in
  let obj := row_to_object header sheetName idx row in
  (has_id source = true → obj = source) ∧
  (has_id source = false → obj = <["id" := synthesized_id sheetName idx]> source) ∧
  has_id obj = true.
Proof.
  simpl. unfold row_to_object.
  destruct (has_id (fill_object header 0 row ∅)) eqn:Hid.
  - repeat split; [discriminate | assumption].
  - repeat split; [discriminate|].
    apply has_id_spec. eexists. rewrite lookup_insert_eq. split; [reflexivity|].
    apply synthesized_id_nonempty.
Qed.

Lemma row_to_object_other header sheetName idx row k :
  k ≠ "id" →
  row_to_object header sheetName idx row !! k = fill_object header 0 row ∅ !! k.
Proof.
  intros Hk. unfold row_to_object.
  destruct (has_id _); [reflexivity|].
  apply lookup_insert_ne. congruence.
Qed.

(** ** What comes back from the grid [syncToSheet] writes *)

(** Reading [sheet_rows values] back gives one object per item, in order,
    with the non-empty header keys and [id]: every key but [id] holds the
    cell text of the item's value, and [id] holds the item's own
    identifier text when that is not empty, the positional one
    otherwise. *)
Lemma sheet_rows_read_back sheetName (values : list value) :
  let back := sheetValuesToObjects (Some (sheet_rows values)) sheetName in
  length back = length values ∧
  ∀ i item, values !! i = Some item →
    ∃ obj, back !! i = Some obj ∧
      (∀ k, k ≠ "id" →
         obj !! k = if decide (k ∈ allKeys values ∧ k ≠ "" ∧ k ≠ "__proto__")
                    then Some (cell (opt_get item k)) else None) ∧
      obj !! "id" =
        Some (if decide ("id" ∈ allKeys values ∧ cell (opt_get item "id") ≠ "")
              then cell (opt_get item "id")
              else synthesized_id sheetName i).
Proof.
  simpl. unfold sheet_rows. split.
  { rewrite length_imap. apply length_map. }
  intros i item Hitem. eexists. rewrite list_lookup_imap.
  change (List.map ?f ?l) with (f <$> l). rewrite list_lookup_fmap, Hitem. simpl.
  split; [reflexivity|].
  assert (Hsrc : ∀ k, fill_object (allKeys values) 0
                        (sheet_row (allKeys values) item) ∅ !! k =
                      if decide (k ∈ allKeys values ∧ k ≠ "" ∧ k ≠ "__proto__")
                      then Some (cell (opt_get item k)) else None).
  { intros k. case_decide as Hk.
    - destruct Hk as (Hin & Hne & Hp).
      apply list_elem_of_lookup in Hin as [j Hj].
      rewrite (fill_object_present _ 0 _ _ j k (allKeys_NoDup values) Hj Hne Hp).
      simpl. rewrite (sheet_row_lookup _ _ _ _ Hj). reflexivity.
    - rewrite fill_object_absent; [apply lookup_empty|].
      destruct (decide (k = "")) as [Hk0|Hk0]; [right; left; assumption|].
      destruct (decide (k = "__proto__")) as [Hk1|Hk1];
        [right; right; assumption|left].
      intros Hin. apply Hk. repeat split; assumption. }
  split.
  - intros k Hk. rewrite row_to_object_other by assumption. apply Hsrc.
  - unfold row_to_object, has_id. rewrite Hsrc.
    destruct (decide ("id" ∈ allKeys values)) as [Hin|Hnin].
    + rewrite (decide_True
                 (P := "id" ∈ allKeys values ∧ "id" ≠ "" ∧ "id" ≠ "__proto__"))
        by (repeat split; [assumption|discriminate|discriminate]).
      destruct (String.eqb_spec (cell (opt_get item "id")) "") as [Heq|Hne];
        simpl.
      * rewrite lookup_insert_eq, decide_False; [reflexivity|].
        intros [_ Hne]. contradiction.
      * rewrite Hsrc.
        rewrite (decide_True
                   (P := "id" ∈ allKeys values ∧ "id" ≠ "" ∧ "id" ≠ "__proto__"))
          by (repeat split; [assumption|discriminate|discriminate]).
        rewrite decide_True by (split; assumption). reflexivity.
    + rewrite (decide_False
                 (P := "id" ∈ allKeys values ∧ "id" ≠ "" ∧ "id" ≠ "__proto__"))
        by (intros [Hin _]; contradiction).
      rewrite lookup_insert_eq, decide_False; [reflexivity|].
      intros [Hin _]. contradiction.
Qed.

(** ** Identifiers *)

(** C2, as amended. Every object read from a grid carries exactly one
    non-empty identifier: the one of its row when the row has a non-empty
    [id] cell, and otherwise the one made from the sheet name and the
    row's position. The identifiers made up within one read are pairwise
    distinct. (An identifier a row brings is taken as it is, so it may
    repeat another row's or a made-up one.) *)
Theorem read_assigns_identifiers header rows sheetName :
  let objs := sheetValuesToObjects (Some (header :: rows)) sheetName in
  length objs = length rows ∧
  (∀ i row, rows !! i = Some row →
     ∃ obj, objs !! i = Some obj ∧ has_id obj = true ∧
       (has_id (source_object header row) = true →
          obj = source_object header row) ∧
       (has_id (source_object header row) = false →
          obj = <["id" := synthesized_id sheetName i]>
                  (source_object header row))) ∧
  (∀ i j rowi rowj obji objj,
     rows !! i = Some rowi → rows !! j = Some rowj →
     objs !! i = Some obji → objs !! j = Some objj →
     has_id (source_object header rowi) = false →
     has_id (source_object header rowj) = false →
     i ≠ j → obji !! "id" ≠ objj !! "id").
Proof.
  simpl. split; [apply length_imap|]. split.
  - intros i row Hrow. eexists. rewrite list_lookup_imap, Hrow. simpl.
    split; [reflexivity|].
    destruct (row_to_object_id header sheetName i row) as (Hown & Hsyn & Hid).
    auto.
  - intros i j rowi rowj obji objj Hi Hj Hoi Hoj Hni Hnj Hij.
    rewrite list_lookup_imap, Hi in Hoi. rewrite list_lookup_imap, Hj in Hoj.
    simpl in Hoi, Hoj. injection Hoi as <-. injection Hoj as <-.
    destruct (row_to_object_id header sheetName i rowi) as (_ & Hsi & _).
    destruct (row_to_object_id header sheetName j rowj) as (_ & Hsj & _).
    rewrite (Hsi Hni), (Hsj Hnj), !lookup_insert_eq.
    intros [= Heq]. apply Hij. eapply synthesized_id_inj, Heq.
Qed.

End MapperFacts.

(* ================================================================= *)
(** * Properties of asynchronous programs *)

Section ProgFacts.
Context {St Req Rsp Err : Type}.
Variable env : nat → Req → Rsp + Err.
Variable settle : Req → Rsp + Err → St → St.

#[local] Abbreviation prog := (prog St Req Rsp Err).
#[local] Abbreviation run := (run env settle).
#[local] Abbreviation issued := (issued env settle).

Lemma run_bind {A B} (p : prog A) (f : A → prog B) : ∀ w,
  run (bind p f) w =
  match run p w with
  | (Returned a, w') => run (f a) w'
  | (Thrown e, w') => (Thrown e, w')
  end.
Proof.
  induction p as [a|e|k IH|s k IH|r k IH|r k IH|k IH]; intros w; simpl;
    try reflexivity; try apply IH;
    destruct (issue env settle r w) as [o w']; apply IH.
Qed.

Lemma run_try_catch {A} (p : prog A) (h : Err → prog A) : ∀ w,
  run (try_catch p h) w =
  match run p w with
  | (Returned a, w') => (Returned a, w')
  | (Thrown e, w') => run (h e) w'
  end.
Proof.
  induction p as [a|e|k IH|s k IH|r k IH|r k IH|k IH]; intros w; simpl;
    try reflexivity; try apply IH;
    destruct (issue env settle r w) as [o w']; apply IH.
Qed.

Lemma run_await {A} (p : prog A) w : run (await p) w = run p w.
Proof.
  unfold await. rewrite run_bind.
  destruct (run p w) as [[a|e] w']; reflexivity.
Qed.

(** A run only ever adds to the requests issued. *)
Lemma run_trace_prefix {A} (p : prog A) : ∀ w,
  ∃ l, trace (run p w).2 = (trace w ++ l)%list.
Proof.
  induction p as [a|e|k IH|s k IH|r k IH|r k IH|k IH]; intros w; simpl;
    try (exists []; rewrite app_nil_r; reflexivity);
    try apply IH.
  - apply (IH (World s (trace w))).
  - destruct (IH (env (length (trace w)) r)
               (World (settle r (env (length (trace w)) r) (state_of w))
                  (trace w ++ [r]))) as [l Hl].
    exists (r :: l). rewrite Hl. simpl. rewrite <- app_assoc. reflexivity.
  - destruct (IH (env (length (trace w)) r)
               (World (settle r (env (length (trace w)) r) (state_of w))
                  (trace w ++ [r]))) as [l Hl].
    exists (r :: l). rewrite Hl. simpl. rewrite <- app_assoc. reflexivity.
Qed.

Lemma run_trace {A} (p : prog A) w :
  trace (run p w).2 = (trace w ++ issued p w)%list.
Proof.
  unfold issued. destruct (run_trace_prefix p w) as [l Hl].
  rewrite Hl, drop_app_length. reflexivity.
Qed.

End ProgFacts.

(* ================================================================= *)
(** * Properties of the service facade *)

Section ServiceFacts.
Context `{Builtins}.
Variable cfg : config.
Variable env : nat → request → outcome.

#[local] Abbreviation run := (run env settle).
#[local] Abbreviation issued := (issued env settle).

#[local] Notation "x ← p ; q" := (bind p (fun x => q))
  (at level 20, p at level 100, q at level 200, right associativity,
   only parsing).
#[local] Notation "p ;; q" := (bind p (fun _ => q))
  (at level 100, q at level 200, right associativity, only parsing).

(** ** Bootstrap *)

Lemma settle_gapi_script v s :
  settle (AppendScript GAPI_SCRIPT) (inl v) s = set_window_gapi true s.
Proof. reflexivity. Qed.

Lemma settle_not_script r o s : loads_library r = false → settle r o s = s.
Proof. destruct r; try reflexivity; discriminate. Qed.

Lemma same_session_refl s : same_session s s.
Proof. repeat split. Qed.

Lemma same_session_trans s1 s2 s3 :
  same_session s1 s2 → same_session s2 s3 → same_session s1 s3.
Proof.
  intros (Ha & Hp) (Ha' & Hp'). split; congruence.
Qed.

Lemma ensureGapiClient_inited w :
  gapiInited (state_of w) = true →
  run (ensureGapiClient cfg) w = (Returned tt, w).
Proof.
  intros Hin. unfold ensureGapiClient. simpl. rewrite Hin. reflexivity.
Qed.

#[local] Arguments settle : simpl never.

#[local] Ltac finish_bootstrap :=
  repeat split; simpl; auto; try discriminate;
  try (eexists; split; [rewrite <- ?app_assoc; simpl; reflexivity|reflexivity]);
  try (exists []; split; [rewrite app_nil_r; reflexivity|reflexivity]).

(** Whatever happens, [ensureGapiClient] issues bootstrap requests only,
    leaves the session alone, and has initialised the client when it
    returns. *)
Lemma ensureGapiClient_run w :
  let '(r, w1) := run (ensureGapiClient cfg) w in
  (∃ news, trace w1 = (trace w ++ news)%list ∧
           forallb is_bootstrap news = true) ∧
  same_session (state_of w) (state_of w1) ∧
  (r = Returned tt → gapiInited (state_of w1) = true).
Proof.
  unfold ensureGapiClient, loadGapiScript. cbn.
  destruct (gapiInited (state_of w)) eqn:Hin; cbn; [finish_bootstrap|].
  destruct (negb (env_truthy (CLIENT_ID cfg)) || negb (env_truthy (API_KEY cfg)))
    eqn:Hcfg; cbn; [finish_bootstrap|].
  destruct (window_gapi (state_of w)) eqn:Hw; cbn; unfold issue; cbn.
  - destruct (env _ (GapiLoad _)); cbn; [|finish_bootstrap].
    destruct (env _ (GapiClientInit _ _)); cbn; finish_bootstrap.
  - destruct (env _ (AppendScript _)); cbn; [|finish_bootstrap].
    destruct (env _ (GapiLoad _)); cbn; [|finish_bootstrap].
    destruct (env _ (GapiClientInit _ _)); cbn; finish_bootstrap.
Qed.

(** A first bootstrap that succeeds loads the script, loads the client
    library and initialises the client, once each. *)
Lemma ensureGapiClient_cold w w1 :
  gapiInited (state_of w) = false →
  window_gapi (state_of w) = false →
  run (ensureGapiClient cfg) w = (Returned tt, w1) →
  w1 = World (set_gapiInited true
                (set_gapi_client true (set_window_gapi true (state_of w))))
         (trace w ++ [ AppendScript GAPI_SCRIPT; GapiLoad "client";
                       GapiClientInit (API_KEY cfg) DISCOVERY_DOCS ]).
Proof.
  intros Hin Hw. unfold ensureGapiClient, loadGapiScript. cbn.
  rewrite Hin. cbn.
  destruct (negb (env_truthy (CLIENT_ID cfg)) || negb (env_truthy (API_KEY cfg)));
    cbn; [discriminate|].
  rewrite Hw. cbn. unfold issue. cbn.
  destruct (env _ (AppendScript _)); cbn; [|discriminate].
  destruct (env _ (GapiLoad _)); cbn; [|discriminate].
  destruct (env _ (GapiClientInit _ _)); cbn; [|discriminate].
  intros [= <-]. rewrite <- !app_assoc. reflexivity.
Qed.

Lemma ensureGisClient_run w :
  let '(r, w1) := run (ensureGisClient cfg) w in
  (∃ news, trace w1 = (trace w ++ news)%list ∧
           forallb is_bootstrap news = true) ∧
  same_session (state_of w) (state_of w1) ∧
  gapiInited (state_of w1) = gapiInited (state_of w).
Proof.
  unfold ensureGisClient, loadGisScript. cbn.
  destruct (gisInited (state_of w) && truthy (tokenClient (state_of w)));
    cbn; [finish_bootstrap|].
  destruct (window_gis (state_of w)) eqn:Hw; cbn; unfold issue; cbn.
  - destruct (negb (env_truthy (CLIENT_ID cfg))); cbn; [finish_bootstrap|].
    unfold issue; cbn.
    destruct (env _ (InitTokenClient _ _)); cbn; finish_bootstrap.
  - destruct (env _ (AppendScript _)); cbn; [|finish_bootstrap].
    destruct (negb (env_truthy (CLIENT_ID cfg))); cbn; [finish_bootstrap|].
    unfold issue; cbn.
    destruct (env _ (InitTokenClient _ _)); cbn; finish_bootstrap.
Qed.

(** Every operation runs behind the bootstrap. *)
Lemma run_behind_bootstrap {A} (p : gs_prog A) w :
  run (await (ensureGapiClient cfg) ;; p) w =
  match run (ensureGapiClient cfg) w with
  | (Returned _, w1) => run p w1
  | (Thrown e, w1) => (Thrown e, w1)
  end.
Proof. rewrite run_bind, run_await. reflexivity. Qed.

Lemma run_call r w :
  run (await (call r)) w =
  let o := env (length (trace w)) r in
  (match o with inl v => Returned v | inr e => Thrown e end,
   World (settle r o (state_of w)) (trace w ++ [r])).
Proof.
  rewrite run_await. unfold call. cbn. unfold issue.
  destruct (env _ r); reflexivity.
Qed.

Lemma run_field res k w : (run (field res k) w).2 = w.
Proof.
  unfold field. destruct res as [v|data]; [|reflexivity].
  destruct (get v k); reflexivity.
Qed.

Lemma bootstrap_requests_only (f : request → bool) news :
  (∀ r, is_bootstrap r = true → f r = true) →
  forallb is_bootstrap news = true → forallb f news = true.
Proof.
  intros Hf. induction news as [|r news IH]; [reflexivity|]. simpl.
  intros [Hr Hnews]%andb_true_iff. rewrite (Hf r Hr). apply IH, Hnews.
Qed.

Lemma get_defined (v : value) k :
  v ≠ VUndefined → v ≠ VNull → get v k = Some (opt_get v k).
Proof. destruct v; intros; try reflexivity; contradiction. Qed.

(** ** [initClient] *)

Lemma initClient_run w :
  run (initClient cfg) w =
  match run (ensureGapiClient cfg) w with
  | (Returned _, w1) =>
      match run (ensureGisClient cfg) w1 with
      | (Returned _, w2) => (Returned (truthy (accessToken (state_of w2))), w2)
      | (Thrown _, w2) => (Returned false, w2)
      end
  | (Thrown _, w1) => (Returned false, w1)
  end.
Proof.
  unfold initClient. rewrite run_try_catch, run_bind, run_await.
  destruct (run (ensureGapiClient cfg) w) as [[[]|e] w1];
    [|reflexivity].
  rewrite run_bind, run_await.
  destruct (run (ensureGisClient cfg) w1) as [[[]|e] w2];
    reflexivity.
Qed.

(** C8. However the requests of the two bootstraps settle, [initClient]
    returns a boolean and throws nothing: [false] as soon as either
    bootstrap fails, and otherwise whether an access token is held. *)
Theorem initClient_never_throws w :
  ∃ b w', run (initClient cfg) w = (Returned b, w') ∧
    (b = true → truthy (accessToken (state_of w)) = true) ∧
    (∀ e w1, run (ensureGapiClient cfg) w = (Thrown e, w1) → b = false) ∧
    (∀ w1 e w2, run (ensureGapiClient cfg) w = (Returned tt, w1) →
       run (ensureGisClient cfg) w1 = (Thrown e, w2) → b = false) ∧
    (∀ w1 w2, run (ensureGapiClient cfg) w = (Returned tt, w1) →
       run (ensureGisClient cfg) w1 = (Returned tt, w2) →
       b = truthy (accessToken (state_of w))).
Proof.
  rewrite initClient_run.
  pose proof (ensureGapiClient_run w) as Hg.
  destruct (run (ensureGapiClient cfg) w)
    as [[[]|e] w1] eqn:Hgapi.
  - pose proof (ensureGisClient_run w1) as Hs.
    destruct (run (ensureGisClient cfg) w1)
      as [[[]|e] w2] eqn:Hgis.
    + destruct Hg as (_ & (Ha & _) & _). destruct Hs as (_ & (Ha' & _) & _).
      eexists _, _. split; [reflexivity|].
      rewrite Ha', Ha. split; [auto|]. split; [discriminate|]. split.
      * intros w1' e w2' Heq Hthrown. congruence.
      * reflexivity.
    + eexists _, _. split; [reflexivity|]. split; [discriminate|].
      split; [reflexivity|]. split; [reflexivity|].
      intros w1' w2' Heq Hret. congruence.
  - eexists _, _. split; [reflexivity|]. split; [discriminate|].
    split; [reflexivity|]. split; discriminate.
Qed.

(** ** [syncToSheet] *)

Lemma array_items_not_array dataArray :
  Array_isArray dataArray = false → array_items dataArray = [].
Proof. destruct dataArray; try reflexivity. discriminate. Qed.

(** With nothing to write, the call clears the range and stops. *)
Lemma syncToSheet_no_items sheetName dataArray w :
  array_items dataArray = [] →
  let clear := SheetsValuesClear (SPREADSHEET_ID cfg) (sheetName +:+ "!A:Z") in
  run (syncToSheet cfg sheetName dataArray) w =
  match run (ensureGapiClient cfg) w with
  | (Returned _, w1) =>
      (match env (length (trace w1)) clear with
       | inl _ => Returned SYNC_SUCCESS
       | inr e => Thrown e
       end,
       World (state_of w1) (trace w1 ++ [clear]))
  | (Thrown e, w1) => (Thrown e, w1)
  end.
Proof.
  intros Hitems. unfold syncToSheet.
  rewrite run_behind_bootstrap, Hitems.
  destruct (run (ensureGapiClient cfg) w) as [[[]|e] w1];
    [|reflexivity].
  cbn [length]. rewrite decide_True by reflexivity.
  rewrite run_bind, run_call. cbn.
  rewrite settle_not_script by reflexivity.
  destruct (env _ _); reflexivity.
Qed.

Lemma syncToSheet_no_items_issued sheetName dataArray w :
  array_items dataArray = [] →
  forallb (fun r => negb (is_sheet_update r))
    (issued (syncToSheet cfg sheetName dataArray) w) = true.
Proof.
  intros Hitems. unfold issued.
  rewrite (syncToSheet_no_items sheetName dataArray w Hitems).
  pose proof (ensureGapiClient_run w) as Hboot.
  destruct (run (ensureGapiClient cfg) w) as [[[]|e] w1];
    destruct Hboot as ((news & Htrace & Hnews) & _ & _); simpl;
    rewrite Htrace, <- ?app_assoc, drop_app_length.
  - rewrite forallb_app. simpl. rewrite andb_true_r.
    revert Hnews. apply bootstrap_requests_only. intros []; easy.
  - revert Hnews. apply bootstrap_requests_only. intros []; easy.
Qed.

(** C3. Once the bootstrap has passed, [syncToSheet] with an empty
    collection issues one request, the clearing of the sheet's whole
    [A:Z] range, and returns the success result when it resolves. No
    update request, hence no header and no row, is ever written. *)
Theorem syncToSheet_empty_collection sheetName w w1 :
  run (ensureGapiClient cfg) w = (Returned tt, w1) →
  let clear := SheetsValuesClear (SPREADSHEET_ID cfg) (sheetName +:+ "!A:Z") in
  let '(r, w2) := run (syncToSheet cfg sheetName (VArr [])) w in
  trace w2 = (trace w1 ++ [clear])%list ∧
  state_of w2 = state_of w1 ∧
  forallb (fun r => negb (is_sheet_update r))
    (issued (syncToSheet cfg sheetName (VArr [])) w) = true ∧
  (∀ ok, env (length (trace w1)) clear = inl ok → r = Returned SYNC_SUCCESS).
Proof.
  intros Hboot.
  pose proof (syncToSheet_no_items_issued sheetName (VArr []) w eq_refl) as Hno.
  rewrite (syncToSheet_no_items sheetName (VArr []) w eq_refl), Hboot.
  repeat split; [exact Hno|]. intros ok ->. reflexivity.
Qed.

(** C10. An argument that is not an array is handled exactly as the empty
    array: no update request is issued and, once the bootstrap has
    passed, the one request issued clears the sheet's [A:Z] range and the
    call returns the success result [{ success: true }] when that
    resolves. *)
Theorem syncToSheet_not_an_array sheetName dataArray w :
  Array_isArray dataArray = false →
  run (syncToSheet cfg sheetName dataArray) w =
    run (syncToSheet cfg sheetName (VArr [])) w ∧
  forallb (fun r => negb (is_sheet_update r))
    (issued (syncToSheet cfg sheetName dataArray) w) = true ∧
  ∀ w1, run (ensureGapiClient cfg) w = (Returned tt, w1) →
    let clear := SheetsValuesClear (SPREADSHEET_ID cfg) (sheetName +:+ "!A:Z") in
    trace (run (syncToSheet cfg sheetName dataArray) w).2
      = (trace w1 ++ [clear])%list ∧
    (∀ ok, env (length (trace w1)) clear = inl ok →
       (run (syncToSheet cfg sheetName dataArray) w).1
         = Returned (VObj [("success", VBool true)])).
Proof.
  intros Hnot. apply array_items_not_array in Hnot.
  split; [|split].
  - rewrite (syncToSheet_no_items sheetName dataArray w Hnot).
    rewrite (syncToSheet_no_items sheetName (VArr []) w eq_refl). reflexivity.
  - apply syncToSheet_no_items_issued, Hnot.
  - intros w1 Hboot. rewrite (syncToSheet_no_items sheetName dataArray w Hnot), Hboot.
    split; [reflexivity|]. intros ok ->. reflexivity.
Qed.

Lemma inherited_proto k : inherited k = false → k ≠ "__proto__".
Proof. intros Hk ->. discriminate. Qed.

(** C1, as amended. For a non-empty array of records (objects, or [null]
    or [undefined] in their place) none of whose keys is a name that
    objects inherit from [Object.prototype], the grid sent after the
    range is cleared reads back as one object per record, in the same
    order. The object has the non-empty keys of the header, and [id].
    Every key but [id] holds the text written for the record's value:
    [String(v)] for a primitive, the JSON text for an array or object
    ([String(v)] when [JSON.stringify] throws), the empty text for
    [null], [undefined] or a field the record lacks. [id] holds the
    text of the record's own identifier when that is not empty, and
    [sheetName-(index+1)] otherwise. *)
Theorem syncToSheet_read_back sheetName dataArray w w1 ok :
  run (ensureGapiClient cfg) w = (Returned tt, w1) →
  array_items dataArray ≠ [] →
  let values := array_items dataArray in
  forallb (fun item => match item with
                       | VNull | VUndefined | VObj _ => true
                       | _ => false
                       end) values = true →
  forallb (fun k => negb (inherited k)) (allKeys values) = true →
  let clear := SheetsValuesClear (SPREADSHEET_ID cfg) (sheetName +:+ "!A:Z") in
  let update :=
    SheetsValuesUpdate (SPREADSHEET_ID cfg) (sheetName +:+ "!A1") "RAW"
      (sheet_rows values) in
  env (length (trace w1)) clear = inl ok →
  trace (run (syncToSheet cfg sheetName dataArray) w).2
    = (trace w1 ++ [clear; update])%list ∧
  let back := sheetValuesToObjects (Some (sheet_rows values)) sheetName in
  let text v :=
    match v with
    | VNull | VUndefined => ""
    | VArr _ | VObj _ => default (String_ v) (JSON_stringify v)
    | _ => String_ v
    end in
  length back = length values ∧
  ∀ i item, values !! i = Some item →
    ∃ obj, back !! i = Some obj ∧
      (∀ k, k ≠ "id" →
         obj !! k = if decide (k ∈ allKeys values ∧ k ≠ "")
                    then Some (text (opt_get item k)) else None) ∧
      obj !! "id" =
        Some (if decide ("id" ∈ allKeys values ∧ text (opt_get item "id") ≠ "")
              then text (opt_get item "id")
              else sheetName +:+ "-" +:+ pretty (i + 1)%nat).
Proof.
  intros Hboot Hitems values Hrecords Hkeys clear update Hclear.
  split.
  { unfold syncToSheet. rewrite run_behind_bootstrap, Hboot.
    fold values. rewrite decide_False
      by (intros Hlen; apply Hitems, nil_length_inv, Hlen).
    rewrite run_bind, run_call. fold clear. cbv zeta. rewrite Hclear.
    rewrite run_bind, run_call. cbn [trace length]. fold update.
    destruct (env _ update) as [res|e]; [|rewrite <- app_assoc; reflexivity].
    rewrite run_field. cbn [trace]. rewrite <- app_assoc. reflexivity. }
  intros back text.
  assert (Htext : ∀ v, cell v = text v).
  { intros v. unfold cell, text.
    destruct v; try reflexivity; destruct (JSON_stringify _); reflexivity. }
  destruct (sheet_rows_read_back sheetName values) as [Hlen Hback].
  split; [exact Hlen|].
  intros i item Hitem.
  destruct (Hback i item Hitem) as (obj & Hobj & Hother & Hid).
  exists obj. split; [exact Hobj|]. split.
  - intros k Hk. rewrite (Hother k Hk), Htext.
    destruct (decide (k ∈ allKeys values ∧ k ≠ "")) as [[Hin Hne]|Hno].
    + rewrite decide_True; [reflexivity|].
      repeat split; [assumption|assumption|].
      apply inherited_proto, negb_true_iff.
      apply (proj1 (forallb_forall _ _) Hkeys k), list_elem_of_In, Hin.
    + rewrite decide_False; [reflexivity|].
      intros (Hin & Hne & _). apply Hno. split; assumption.
  - rewrite Hid, Htext. unfold synthesized_id. reflexivity.
Qed.

(** ** [addToCalendar] *)

Lemma addToCalendar_invalid_run event w :
  event ≠ VUndefined → event ≠ VNull →
  truthy (opt_get event "title") = false ∨
  truthy (opt_get event "date") = false →
  run (addToCalendar cfg event) w =
  match run (ensureGapiClient cfg) w with
  | (Returned _, w1) => (Thrown VALIDATION_ERROR, w1)
  | (Thrown e, w1) => (Thrown e, w1)
  end.
Proof.
  intros Hu Hn Hmissing. unfold addToCalendar.
  rewrite run_behind_bootstrap.
  destruct (run (ensureGapiClient cfg) w) as [[[]|e] w1];
    [|reflexivity].
  rewrite !get_defined by assumption.
  destruct Hmissing as [-> | ->]; [reflexivity|].
  rewrite orb_true_r. reflexivity.
Qed.

(** C4, as amended. An event without a usable title or date never
    reaches the calendar, and the call always fails. It awaits the
    bootstrap first, like every operation: when the bootstrap fails the
    call fails with the bootstrap's error; when it passes the call fails
    with the validation error [Event title 和 date 為必填], raised before
    anything else is issued. So everything the call issues is a request
    of the bootstrap, none of them a calendar insert, and nothing at all
    is issued when the client was initialised already. *)
Theorem addToCalendar_validation event w :
  event ≠ VUndefined → event ≠ VNull →
  truthy (opt_get event "title") = false ∨
  truthy (opt_get event "date") = false →
  let '(r, w2) := run (addToCalendar cfg event) w in
  (∃ e, r = Thrown e) ∧
  (∀ e w1, run (ensureGapiClient cfg) w = (Thrown e, w1) →
     r = Thrown e ∧ w2 = w1) ∧
  (∀ w1, run (ensureGapiClient cfg) w = (Returned tt, w1) →
     r = Thrown (Error_ "Event title 和 date 為必填") ∧ w2 = w1) ∧
  (gapiInited (state_of w) = true →
     r = Thrown (Error_ "Event title 和 date 為必填") ∧ w2 = w) ∧
  forallb is_bootstrap (issued (addToCalendar cfg event) w) = true ∧
  forallb (fun r => negb (is_calendar_insert r))
    (issued (addToCalendar cfg event) w) = true.
Proof.
  intros Hu Hn Hmissing.
  pose proof (addToCalendar_invalid_run event w Hu Hn Hmissing) as Hrun.
  pose proof (ensureGapiClient_run w) as Hboot.
  unfold issued. rewrite Hrun.
  destruct (run (ensureGapiClient cfg) w)
    as [[[]|e] w1] eqn:Hgapi; simpl;
    destruct Hboot as ((news & Htrace & Hnews) & _ & _);
    rewrite Htrace, drop_app_length.
  - split; [eauto|]. split; [discriminate|].
    split; [intros w1' [= <-]; auto|]. split.
    + intros Hin. rewrite (ensureGapiClient_inited w Hin) in Hgapi.
      injection Hgapi as <-. auto.
    + split; [assumption|].
      revert Hnews. apply bootstrap_requests_only. intros []; easy.
  - split; [eauto|]. split; [intros e' w1' [= <- <-]; auto|].
    split; [discriminate|]. split.
    + intros Hin. rewrite (ensureGapiClient_inited w Hin) in Hgapi.
      discriminate.
    + split; [assumption|].
      revert Hnews. apply bootstrap_requests_only. intros []; easy.
Qed.

(** C5. For the event titled 丈量 on 2025-06-01 with no time, the date
    text parsed is the date followed by the fallback time 10:00, and the
    one request issued after the bootstrap inserts an event that starts
    at that instant, ends 3600000 ms (one hour) later, and names the time
    zone Asia/Taipei for both. *)
Theorem addToCalendar_default_time w w1 t :
  run (ensureGapiClient cfg) w = (Returned tt, w1) →
  Date_parse "2025-06-01 10:00" = Some t →
  (Z.abs (t + 3600000) ≤ 8640000000000000)%Z →
  let event := VObj [("title", VStr "丈量"); ("date", VStr "2025-06-01")] in
  let insert :=
    CalendarEventsInsert "primary"
      (CalendarResource (VStr "丈量") ""
         (EventTime (Date_toISOString t) "Asia/Taipei")
         (EventTime (Date_toISOString (t + 3600000)) "Asia/Taipei")) in
  let '(r, w2) := run (addToCalendar cfg event) w in
  trace w2 = (trace w1 ++ [insert])%list ∧
  (∀ e, env (length (trace w1)) insert = inr e → r = Thrown e) ∧
  (∀ res, env (length (trace w1)) insert = inl (Resolved res) →
     res ≠ VUndefined → res ≠ VNull →
     r = Returned (opt_get res "result")).
Proof.
  intros Hboot Hparse Hrange. unfold addToCalendar.
  rewrite run_behind_bootstrap, Hboot. cbn.
  change ("2025-06-01" +:+ " " +:+ FALLBACK_TIME) with "2025-06-01 10:00".
  rewrite Hparse. cbn. unfold TimeClip, ONE_HOUR.
  change (60 * 60 * 1000)%Z with 3600000%Z.
  rewrite decide_True by exact Hrange.
  cbn. unfold issue; cbn. unfold TIME_ZONE.
  destruct (env _ _) as [[res|data]|e]; cbn.
  - destruct (get res "result") as [x|] eqn:Hres; cbn;
      (split; [reflexivity|]; split; [discriminate|]);
      intros res' [= <-] Hu Hn; rewrite get_defined in Hres by assumption;
      congruence.
  - split; [reflexivity|]. split; discriminate.
  - split; [reflexivity|]. split; [intros e' [= <-]; reflexivity|discriminate].
Qed.

(** ** [uploadToDrive] *)

(** C6, as amended. For an input without a callable [arrayBuffer] the
    call awaits the bootstrap like every other operation and then only
    reads the clock: when the bootstrap fails it fails with the same
    error; when the bootstrap passes it returns the mock result
    [{ success: true, url }], whose URL is the fixed prefix followed by
    what [Date.now()] gives at that moment, after the bootstrap. Nothing
    is requested beyond what the bootstrap requests, and nothing at all
    when the client is initialised already. *)
Theorem uploadToDrive_mock v folderName w :
  (∀ e w1, run (ensureGapiClient cfg) w = (Thrown e, w1) →
     run (uploadToDrive cfg (PlainValue v) folderName) w = (Thrown e, w1)) ∧
  (∀ w1 now, run (ensureGapiClient cfg) w = (Returned tt, w1) →
     env (length (trace w1)) DateNow = inl (Resolved now) →
     run (uploadToDrive cfg (PlainValue v) folderName) w
       = (Returned
            (VObj [ ("success", VBool true);
                    ("url", VStr ("https://drive.google.com/file/d/mock-"
                                  +:+ String_ now)) ]),
          World (state_of w1) (trace w1 ++ [DateNow]))) ∧
  (∀ now, gapiInited (state_of w) = true →
     env (length (trace w)) DateNow = inl (Resolved now) →
     run (uploadToDrive cfg (PlainValue v) folderName) w
       = (Returned
            (VObj [ ("success", VBool true);
                    ("url", VStr ("https://drive.google.com/file/d/mock-"
                                  +:+ String_ now)) ]),
          World (state_of w) (trace w ++ [DateNow]))) ∧
  forallb (fun r => is_bootstrap r || match r with
                                      | DateNow => true
                                      | _ => false
                                      end)
    (issued (uploadToDrive cfg (PlainValue v) folderName) w) = true.
Proof.
  assert (Hrun : run (uploadToDrive cfg (PlainValue v) folderName) w =
    match run (ensureGapiClient cfg) w with
    | (Returned _, w1) =>
        (match env (length (trace w1)) DateNow with
         | inl now =>
             Returned (MOCK_RESULT match now with
                                   | Resolved x => x
                                   | Buffer _ => VUndefined
                                   end)
         | inr e => Thrown e
         end,
         World (state_of w1) (trace w1 ++ [DateNow]))
    | (Thrown e, w1) => (Thrown e, w1)
    end).
  { unfold uploadToDrive. rewrite run_behind_bootstrap.
    destruct (run (ensureGapiClient cfg) w) as [[[]|e] w1]; [|reflexivity].
    cbn. unfold issue. rewrite settle_not_script by reflexivity.
    destruct (env _ DateNow); reflexivity. }
  split; [|split; [|split]].
  - intros e w1 Hboot. rewrite Hrun, Hboot. reflexivity.
  - intros w1 now Hboot Hnow. rewrite Hrun, Hboot, Hnow. reflexivity.
  - intros now Hin Hnow.
    rewrite Hrun, (ensureGapiClient_inited w Hin), Hnow. reflexivity.
  - unfold issued. rewrite Hrun.
    pose proof (ensureGapiClient_run w) as Hboot.
    destruct (run (ensureGapiClient cfg) w) as [[[]|e] w1];
      destruct Hboot as ((news & Htrace & Hnews) & _ & _); cbn [snd trace];
      rewrite Htrace, <- ?app_assoc, drop_app_length, ?forallb_app;
      [apply andb_true_iff; split; [|reflexivity]|];
      revert Hnews; apply bootstrap_requests_only;
      intros r ->; reflexivity.
Qed.

End ServiceFacts.

(* ================================================================= *)
(** * Two bootstraps *)

Section Overlap.
Context `{Builtins}.
Variable cfg : config.
Variable env : nat → request → outcome.

#[local] Arguments settle : simpl never.
#[local] Abbreviation gs_system :=
  (system gs_state request response error unit).
#[local] Abbreviation steps_of :=
  (List.map (@Step gs_state request response error unit)).

Lemma count_app f l1 l2 : count f (l1 ++ l2) = (count f l1 + count f l2)%nat.
Proof. unfold count. rewrite List.filter_app, length_app. reflexivity. Qed.

Lemma settle_gapiInited r o s : gapiInited (settle r o s) = gapiInited s.
Proof.
  destruct r, o; try reflexivity; unfold settle.
  - destruct (String.eqb src GAPI_SCRIPT); [reflexivity|].
    destruct (String.eqb src GIS_SCRIPT); reflexivity.
  - destruct (String.eqb libraries "client"); reflexivity.
Qed.

#[local] Ltac phase_side :=
  first
    [ reflexivity
    | lia
    | discriminate
    | (constructor; split; intros; reflexivity)
    | (constructor; fail)
    | (intros _ Hnf; exfalso; eapply Hnf; reflexivity)
    | (intros Hg _; simpl; rewrite ?settle_gapiInited; exact Hg) ].

#[local] Ltac phase_step sc news :=
  exists sc, news; rewrite ?app_nil_r; repeat split; phase_side.

(** A call that begins while the client is not initialised. *)
Lemma spawn_missing_config w :
  gapiInited (state_of w) = false → config_missing cfg = true →
  advance env settle (ensureGapiClient cfg) w =
  (Finished (Thrown (Error_ "Missing CLIENT_ID or API_KEY")), w).
Proof.
  unfold config_missing. intros Hin Hcfg.
  unfold ensureGapiClient. cbn. rewrite Hin, Hcfg. reflexivity.
Qed.

Lemma spawn_phase w :
  gapiInited (state_of w) = false → config_missing cfg = false →
  let '(t, w') := advance env settle (ensureGapiClient cfg) w in
  ∃ sc news,
    phase cfg sc 0 t ∧ (∀ r, t ≠ Finished r) ∧ state_of w' = state_of w ∧
    trace w' = (trace w ++ news)%list ∧
    count is_script_load news = sc ∧ count is_client_init news = 0%nat ∧
    (sc ≤ 1)%nat ∧
    (window_gapi (state_of w) = false → sc = 1%nat).
Proof.
  unfold config_missing. intros Hin Hcfg.
  unfold ensureGapiClient, loadGapiScript. cbn. rewrite Hin, Hcfg. cbn.
  destruct (window_gapi (state_of w)) eqn:Hw; cbn.
  - phase_step 0%nat (@nil request).
  - phase_step 1%nat [AppendScript GAPI_SCRIPT].
Qed.

(** One more step of such a call. *)
Lemma resume_phase sc ic t w t' w' :
  phase cfg sc ic t →
  resume env settle t w = Some (t', w') →
  ∃ ic' news,
    phase cfg sc ic' t' ∧
    trace w' = (trace w ++ news)%list ∧
    count is_script_load news = 0%nat ∧
    (ic + count is_client_init news = ic')%nat ∧
    (gapiInited (state_of w) = false → (∀ r, t' ≠ Finished r) →
       gapiInited (state_of w') = false).
Proof.
  intros Hph Hres.
  destruct Hph as [i k [Hok Herr]|sc|sc i k [Hok Herr]|sc|sc i k [Hok Herr]
                  |sc|sc|sc ic e];
    simpl in Hres; try discriminate;
    try (destruct (env i _) as [v|e];
         [rewrite Hok in Hres|rewrite Herr in Hres]);
    cbn in Hres; injection Hres as <- <-.
  - phase_step 0%nat (@nil request).
  - phase_step 0%nat (@nil request).
  - phase_step 0%nat [GapiLoad "client"].
  - phase_step 0%nat (@nil request).
  - phase_step 0%nat (@nil request).
  - phase_step 1%nat [GapiClientInit (API_KEY cfg) DISCOVERY_DOCS].
  - phase_step 1%nat (@nil request).
  - phase_step 1%nat (@nil request).
  - phase_step 1%nat (@nil request).
Qed.

Lemma phase_returned sc ic :
  phase cfg sc ic (Finished (Returned tt)) → ic = 1%nat.
Proof. intros Hph. inversion Hph. reflexivity. Qed.

Lemma exec_spawn (p : gs_prog unit) rest (sys : gs_system) :
  exec env settle (Spawn p :: rest) sys =
  exec env settle rest
    (System (pool sys ++ [(advance env settle p (shared sys)).1])
       (advance env settle p (shared sys)).2).
Proof.
  cbn [exec sched_step].
  destruct (advance env settle p (shared sys)); reflexivity.
Qed.

Lemma one_call_steps w0 steps : ∀ sys sys',
  one_call cfg w0 sys →
  exec env settle (steps_of steps) sys = Some sys' →
  one_call cfg w0 sys'.
Proof.
  induction steps as [|i steps IH]; intros sys sys' Hinv Hexec.
  - injection Hexec as <-. assumption.
  - change (steps_of (i :: steps)) with (Step i :: steps_of steps) in Hexec.
    cbn [exec] in Hexec.
    destruct (sched_step env settle sys (Step i)) as [sys1|] eqn:Hstep;
      [|discriminate].
    apply (IH sys1 sys'); [|assumption].
    destruct Hinv as (t & ic & news & Hpool & Hph & Htrace & Hsc & Hic & Hnot).
    unfold sched_step in Hstep. rewrite Hpool in Hstep.
    destruct i as [|i]; simpl in Hstep; [|destruct i; discriminate].
    destruct (resume env settle t (shared sys)) as [[t' w']|] eqn:Hres;
      [|discriminate].
    injection Hstep as <-.
    assert (Hrun : ∀ r, t ≠ Finished r).
    { intros r ->. simpl in Hres. discriminate. }
    destruct (resume_phase _ _ _ _ _ _ Hph Hres)
      as (ic' & news' & Hph' & Htrace' & Hsc' & Hic' & Hnot').
    exists t', ic', (news ++ news')%list. simpl.
    split; [reflexivity|]. split; [assumption|].
    split; [rewrite Htrace', Htrace, app_assoc; reflexivity|].
    rewrite !count_app. split; [lia|]. split; [lia|].
    intros Hnf. apply Hnot'; [apply Hnot, Hrun|assumption].
Qed.

Lemma two_calls_steps w0 sc steps : ∀ sys sys',
  two_calls cfg w0 sc sys →
  exec env settle (steps_of steps) sys = Some sys' →
  two_calls cfg w0 sc sys'.
Proof.
  induction steps as [|i steps IH]; intros sys sys' Hinv Hexec.
  - injection Hexec as <-. assumption.
  - change (steps_of (i :: steps)) with (Step i :: steps_of steps) in Hexec.
    cbn [exec] in Hexec.
    destruct (sched_step env settle sys (Step i)) as [sys1|] eqn:Hstep;
      [|discriminate].
    apply (IH sys1 sys'); [|assumption].
    destruct Hinv as (t0 & t1 & ic0 & ic1 & news & Hpool & Hph0 & Hph1 &
                      Htrace & Hsc & Hic).
    unfold sched_step in Hstep. rewrite Hpool in Hstep.
    destruct i as [|[|i]]; simpl in Hstep; [| |discriminate].
    + destruct (resume env settle t0 (shared sys)) as [[t' w']|] eqn:Hres;
        [|discriminate].
      injection Hstep as <-.
      destruct (resume_phase _ _ _ _ _ _ Hph0 Hres)
        as (ic' & news' & Hph' & Htrace' & Hsc' & Hic' & _).
      exists t', t1, ic', ic1, (news ++ news')%list. simpl.
      split; [reflexivity|]. split; [assumption|]. split; [assumption|].
      split; [rewrite Htrace', Htrace, app_assoc; reflexivity|].
      rewrite !count_app. split; lia.
    + destruct (resume env settle t1 (shared sys)) as [[t' w']|] eqn:Hres;
        [|discriminate].
      injection Hstep as <-.
      destruct (resume_phase _ _ _ _ _ _ Hph1 Hres)
        as (ic' & news' & Hph' & Htrace' & Hsc' & Hic' & _).
      exists t0, t', ic0, ic', (news ++ news')%list. simpl.
      split; [reflexivity|]. split; [assumption|]. split; [assumption|].
      split; [rewrite Htrace', Htrace, app_assoc; reflexivity|].
      rewrite !count_app. split; lia.
Qed.

(** Two calls one after the other: the second finds the client
    initialised and issues nothing. *)
Lemma sequential_bootstraps w w1 :
  gapiInited (state_of w) = false →
  window_gapi (state_of w) = false →
  run env settle (ensureGapiClient cfg) w = (Returned tt, w1) →
  run env settle (ensureGapiClient cfg) w1 = (Returned tt, w1) ∧
  let both := bind (await (ensureGapiClient cfg))
                (fun _ => await (ensureGapiClient cfg)) in
  count is_script_load (issued env settle both w) = 1%nat ∧
  count is_client_init (issued env settle both w) = 1%nat.
Proof.
  intros Hin Hw Hrun.
  assert (Hagain : run env settle (ensureGapiClient cfg) w1 = (Returned tt, w1)).
  { apply ensureGapiClient_inited.
    pose proof (ensureGapiClient_run cfg env w) as Hboot. rewrite Hrun in Hboot.
    apply Hboot. reflexivity. }
  split; [exact Hagain|].
  unfold issued. rewrite run_bind, run_await, Hrun, run_await, Hagain.
  rewrite (ensureGapiClient_cold cfg env w w1 Hin Hw Hrun).
  cbn [snd trace]. rewrite drop_app_length. split; reflexivity.
Qed.

(** Two calls in flight at once: the second begins while the first is
    suspended, so it finds the client not initialised and initialises it
    again; begun before anything else happens, it also finds no library
    and loads the script again. *)
Lemma overlapping_bootstraps w steps0 steps1 sys1 sys2 :
  gapiInited (state_of w) = false →
  window_gapi (state_of w) = false →
  exec env settle (Spawn (ensureGapiClient cfg) :: steps_of steps0)
    (System [] w) = Some sys1 →
  (∀ r, pool sys1 ≠ [Finished r]) →
  exec env settle (Spawn (ensureGapiClient cfg) :: steps_of steps1) sys1
    = Some sys2 →
  pool sys2 = [Finished (Returned tt); Finished (Returned tt)] →
  let news := drop (length (trace w)) (trace (shared sys2)) in
  count is_client_init news = 2%nat ∧
  (1 ≤ count is_script_load news ≤ 2)%nat ∧
  (steps0 = [] → count is_script_load news = 2%nat).
Proof.
  intros Hin Hw Hexec1 Hbusy Hexec2 Hdone.
  rewrite exec_spawn in Hexec1. rewrite exec_spawn in Hexec2.
  cbn [shared pool app] in Hexec1.
  destruct (config_missing cfg) eqn:Hcfg.
  { rewrite (spawn_missing_config w Hin Hcfg) in Hexec1.
    destruct steps0 as [|[|i] steps0]; simpl in Hexec1; try discriminate.
    injection Hexec1 as <-. exfalso. eapply Hbusy. reflexivity. }
  pose proof (spawn_phase w Hin Hcfg) as Hspawn.
  destruct (advance env settle (ensureGapiClient cfg) w) as [t0 w0'] eqn:Hadv.
  cbn [fst snd] in Hexec1.
  destruct Hspawn
    as (sc0 & news0 & Hph0 & Hnf0 & Hst0 & Htr0 & Hsc0 & Hic0 & _ & Hone).
  specialize (Hone Hw). rewrite Hone in Hph0, Hsc0.
  assert (Hinv1 : one_call cfg w (System [t0] w0')).
  { exists t0, 0%nat, news0. simpl. repeat split; auto.
    intros _. rewrite Hst0. assumption. }
  pose proof (one_call_steps w steps0 _ _ Hinv1 Hexec1) as Hinv1'.
  destruct Hinv1'
    as (t0' & ic0 & news1 & Hpool1 & Hph1 & Htr1 & Hsc1 & Hic1 & Hnot1).
  assert (Hrun : ∀ r, t0' ≠ Finished r).
  { intros r ->. eapply Hbusy. eassumption. }
  specialize (Hnot1 Hrun).
  pose proof (spawn_phase (shared sys1) Hnot1 Hcfg) as Hspawn2.
  destruct (advance env settle (ensureGapiClient cfg) (shared sys1))
    as [t1 w1'] eqn:Hadv2.
  cbn [fst snd] in Hexec2.
  destruct Hspawn2
    as (sc & news2 & Hph2 & Hnf2 & Hst2 & Htr2 & Hsc2 & Hic2 & Hle & Hone2).
  assert (Hinv2 : two_calls cfg w sc (System (pool sys1 ++ [t1]) w1')).
  { exists t0', t1, ic0, 0%nat, (news1 ++ news2)%list. simpl.
    rewrite Hpool1. split; [reflexivity|]. split; [assumption|].
    split; [assumption|].
    split; [rewrite Htr2, Htr1, app_assoc; reflexivity|].
    rewrite !count_app. split; lia. }
  pose proof (two_calls_steps w sc steps1 _ _ Hinv2 Hexec2) as Hinv2'.
  destruct Hinv2'
    as (u0 & u1 & jc0 & jc1 & news & Hpool & Hp0 & Hp1 & Htr & Hsc & Hic).
  rewrite Hdone in Hpool. injection Hpool as <- <-.
  apply phase_returned in Hp0, Hp1. subst jc0 jc1.
  simpl. rewrite Htr, drop_app_length.
  split; [assumption|]. split; [lia|].
  intros ->. simpl in Hexec1. injection Hexec1 as <-. simpl in *.
  rewrite Hst0 in Hone2. specialize (Hone2 Hw). lia.
Qed.

(** C7, as amended. From a page where the client is not initialised and
    the library not loaded: two bootstraps run one after the other load
    the script once and initialise the client once, the second issuing
    nothing; two bootstraps in flight together, the second begun before
    the first is over, initialise the client twice when both succeed, and
    load the script twice when the second begins straight after the
    first. *)
Theorem bootstrap_twice w :
  gapiInited (state_of w) = false →
  window_gapi (state_of w) = false →
  (∀ w1, run env settle (ensureGapiClient cfg) w = (Returned tt, w1) →
     run env settle (ensureGapiClient cfg) w1 = (Returned tt, w1) ∧
     let both := bind (await (ensureGapiClient cfg))
                   (fun _ => await (ensureGapiClient cfg)) in
     count is_script_load (issued env settle both w) = 1%nat ∧
     count is_client_init (issued env settle both w) = 1%nat) ∧
  (∀ steps0 steps1 sys1 sys2,
     exec env settle (Spawn (ensureGapiClient cfg) :: steps_of steps0)
       (System [] w) = Some sys1 →
     (∀ r, pool sys1 ≠ [Finished r]) →
     exec env settle (Spawn (ensureGapiClient cfg) :: steps_of steps1) sys1
       = Some sys2 →
     pool sys2 = [Finished (Returned tt); Finished (Returned tt)] →
     let news := drop (length (trace w)) (trace (shared sys2)) in
     count is_client_init news = 2%nat ∧
     (1 ≤ count is_script_load news ≤ 2)%nat ∧
     (steps0 = [] → count is_script_load news = 2%nat)).
Proof.
  intros Hin Hw. split.
  - intros w1. apply sequential_bootstraps; assumption.
  - intros steps0 steps1 sys1 sys2. apply overlapping_bootstraps; assumption.
Qed.

End Overlap.

(* ================================================================= *)
(** * Properties of the token-exchange relay *)

Section RelayFacts.
Context `{Numbers}.
Variable penv : process_env.
Variable env : nat → relay_request → relay_response + error.

#[local] Abbreviation run := (run env relay_settle).

(** A POST gets its CORS headers and goes into the guarded part. *)
Lemma handler_post_run req w :
  method req = "POST" →
  run (handler penv req) w =
  run (try_catch
        (let b := or_else (body req) (VObj []) in
         if negb (truthy (opt_get b "code"))
            || negb (truthy (opt_get b "codeVerifier"))
            || negb (truthy (opt_get b "redirectUri"))
         then status_json 400 INVALID_REQUEST
         else
           match GOOGLE_CLIENT_ID penv, GOOGLE_CLIENT_SECRET penv with
           | Some clientId, Some clientSecret =>
               if env_truthy (Some clientId) && env_truthy (Some clientSecret)
               then exchange (opt_get b "code") (opt_get b "codeVerifier")
                      (opt_get b "redirectUri") clientId clientSecret
               else status_json 500 SERVER_MISCONFIGURED
           | _, _ => status_json 500 SERVER_MISCONFIGURED
           end)
        (fun e => status_json 500
                    (error_body (VStr "server_error") (error_description e))))
    (World (HttpResponse (with_cors req (state_of w)) (status (state_of w))
              (payload (state_of w)) (ended (state_of w)))
       (trace w)).
Proof.
  intros Hpost. unfold handler, with_cors. rewrite Hpost.
  rewrite (decide_False (P := "POST" = "OPTIONS")) by discriminate.
  rewrite (decide_False (P := "POST" ≠ "POST"))
    by (intros Hne; apply Hne; reflexivity).
  rewrite !run_bind.
  destruct (origin_header req) as [o|]; cbn [default];
    destruct (decide (_ ∈ allowlist)); reflexivity.
Qed.


End RelayFacts.

(* ================================================================= *)
(** * Worked examples on the reference runtime *)

Section Examples.
Import Reference.

(** C1 as stated fails: the one record has no identifier, and what comes
    back carries one, so it is not the record restricted to its own
    fields. *)
Lemma roundtrip_adds_identifier :
  let values := [VObj [("name", VStr "a")]] in
  let back := sheetValuesToObjects (Some (sheet_rows values)) "projects" in
  back = [ <["id" := "projects-1"]> {[ "name" := "a" ]} ] ∧
  stringified <$> values = [ {[ "name" := "a" ]} ] ∧
  ¬ (∀ o, o ∈ back ↔ o ∈ stringified <$> values).
Proof.
  split; [vm_compute; reflexivity|]. split; [vm_compute; reflexivity|].
  intros Hset.
  assert (Hin : (<["id" := "projects-1"]> {[ "name" := "a" ]} : gmap string string)
                ∈ stringified <$> [VObj [("name", VStr "a")]]).
  { apply Hset. vm_compute. apply list_elem_of_here. }
  change (stringified <$> [VObj [("name", VStr "a")]])
    with [stringified (VObj [("name", VStr "a")])] in Hin.
  apply list_elem_of_singleton in Hin.
  apply (f_equal (fun m => m !! "id")) in Hin. vm_compute in Hin. discriminate.
Qed.

(** C2 as stated fails: the second row has no identifier and is given
    [S-2], which the first row already carries. *)
Lemma read_identifier_collision :
  ∃ o1 o2,
    sheetValuesToObjects (Some [["id"]; ["S-2"]; [""]]) "S" = [o1; o2] ∧
    has_id (source_object ["id"] [""]) = false ∧
    o1 !! "id" = Some "S-2" ∧ o2 !! "id" = Some "S-2".
Proof. eexists _, _. repeat split; reflexivity. Qed.

(** C4 as stated fails on a page where the client is not initialised:
    an event without a date is refused only after the script was loaded
    and the client initialised over the network, and without
    configuration the failure is not the validation error but that of
    the bootstrap. *)
Lemma addToCalendar_validation_after_bootstrap :
  let event := VObj [("title", VStr "丈量")] in
  (run all_resolve settle (addToCalendar configured event) cold).1
    = Thrown (Error_ "Event title 和 date 為必填") ∧
  issued all_resolve settle (addToCalendar configured event) cold
    = [ AppendScript GAPI_SCRIPT; GapiLoad "client";
        GapiClientInit (Some "api-key") DISCOVERY_DOCS ] ∧
  run all_resolve settle (addToCalendar unconfigured event) cold
    = (Thrown (Error_ "Missing CLIENT_ID or API_KEY"), cold).
Proof. repeat split; vm_compute; reflexivity. Qed.

(** C6 as stated fails on a page where the client is not initialised:
    without configuration the call throws instead of returning the mock
    result, and with it the call loads the script and initialises the
    client over the network before it reads the clock for the mock
    result. *)
Lemma uploadToDrive_cold_client :
  run all_resolve settle
    (uploadToDrive unconfigured (PlainValue VNull) VUndefined) cold
    = (Thrown (Error_ "Missing CLIENT_ID or API_KEY"), cold) ∧
  issued all_resolve settle
    (uploadToDrive configured (PlainValue VNull) VUndefined) cold
    = [ AppendScript GAPI_SCRIPT; GapiLoad "client";
        GapiClientInit (Some "api-key") DISCOVERY_DOCS; DateNow ].
Proof. split; vm_compute; reflexivity. Qed.

(** C7 as stated fails: two bootstraps begun together, every request
    resolving, load the script twice and initialise the client twice. *)
Lemma overlapping_bootstraps_run_twice :
  (fun sys => (pool sys,
               count is_script_load (trace (shared sys)),
               count is_client_init (trace (shared sys))))
    <$> exec all_resolve settle twice_at_once (System [] cold)
  = Some ([Finished (Returned tt); Finished (Returned tt)], 2%nat, 2%nat).
Proof. vm_compute. reflexivity. Qed.

(** The hypotheses of the theorems above hold on the examples. *)
Lemma syncToSheet_read_back_witness :
  let data := VArr [VObj [("name", VStr "a"); ("budget", VNum 5%Z)]] in
  run all_resolve settle (ensureGapiClient configured) warm = (Returned tt, warm) ∧
  array_items data ≠ [] ∧
  forallb (fun item => match item with
                       | VNull | VUndefined | VObj _ => true
                       | _ => false
                       end) (array_items data) = true ∧
  forallb (fun k => negb (inherited k)) (allKeys (array_items data)) = true ∧
  trace (run all_resolve settle (syncToSheet configured "projects" data) warm).2
    = [ SheetsValuesClear (Some "sheet-id") "projects!A:Z";
        SheetsValuesUpdate (Some "sheet-id") "projects!A1" "RAW"
          [["name"; "budget"]; ["a"; "5"]] ] ∧
  ∃ obj,
    sheetValuesToObjects (Some [["name"; "budget"]; ["a"; "5"]]) "projects"
      = [obj] ∧
    obj !! "name" = Some "a" ∧ obj !! "budget" = Some "5" ∧
    obj !! "id" = Some "projects-1".
Proof.
  intros data.
  split; [reflexivity|]. split; [discriminate|].
  split; [reflexivity|]. split; [vm_compute; reflexivity|].
  destruct (@syncToSheet_read_back numbers builtins configured all_resolve
              "projects" data
              warm warm _ eq_refl ltac:(discriminate) eq_refl
              ltac:(vm_compute; reflexivity) eq_refl)
    as (Htrace & _ & Hback).
  split; [exact Htrace|].
  destruct (Hback 0%nat _ eq_refl) as (obj & Hobj & Hother & Hid).
  exists obj. split.
  - vm_compute in Hobj. injection Hobj as <-. vm_compute. reflexivity.
  - split; [|split].
    + rewrite (Hother "name") by discriminate. vm_compute. reflexivity.
    + rewrite (Hother "budget") by discriminate. vm_compute. reflexivity.
    + rewrite Hid. vm_compute. reflexivity.
Defined.

Lemma syncToSheet_empty_collection_witness :
  run all_resolve settle (ensureGapiClient configured) warm = (Returned tt, warm) ∧
  run all_resolve settle (syncToSheet configured "projects" (VArr [])) warm
    = (Returned SYNC_SUCCESS,
       World (state_of warm) [SheetsValuesClear (Some "sheet-id") "projects!A:Z"]).
Proof.
  split; [reflexivity|].
  pose proof (syncToSheet_empty_collection configured all_resolve "projects"
                warm warm eq_refl) as Hthm.
  destruct (run all_resolve settle (syncToSheet configured "projects" (VArr [])) warm)
    as [r w2].
  destruct Hthm as (Htrace & Hstate & _ & Hres).
  rewrite (Hres _ eq_refl). destruct w2 as [s2 t2]. simpl in *.
  rewrite Htrace, Hstate. reflexivity.
Defined.

Lemma syncToSheet_not_an_array_witness :
  Array_isArray (VNull : value) = false ∧
  run all_resolve settle (ensureGapiClient configured) warm = (Returned tt, warm) ∧
  run all_resolve settle (syncToSheet configured "projects" VNull) warm
    = (Returned (VObj [("success", VBool true)]),
       World (state_of warm)
         [SheetsValuesClear (Some "sheet-id") "projects!A:Z"]).
Proof.
  split; [reflexivity|]. split; [reflexivity|].
  destruct (syncToSheet_not_an_array configured all_resolve "projects"
              VNull warm eq_refl) as (_ & _ & Hwarm).
  destruct (Hwarm warm eq_refl) as [Htrace Hres]. cbv zeta in Hres.
  specialize (Hres _ eq_refl).
  destruct (run all_resolve settle (syncToSheet configured "projects" VNull) warm)
    as [r [s2 t2]] eqn:Hrun.
  simpl in Htrace, Hres. subst r t2.
  apply (f_equal (fun x => state_of x.2)) in Hrun. simpl in Hrun. subst s2.
  reflexivity.
Defined.

Lemma addToCalendar_validation_witness :
  let event := VObj [("title", VStr "丈量")] in
  event ≠ VUndefined ∧ event ≠ VNull ∧
  truthy (opt_get event "date") = false ∧
  forallb (fun r => negb (is_calendar_insert r))
    (issued all_resolve settle (addToCalendar configured event) cold) = true.
Proof.
  split; [discriminate|]. split; [discriminate|]. split; [reflexivity|].
  pose proof (addToCalendar_validation configured all_resolve
                (VObj [("title", VStr "丈量")]) cold
                ltac:(discriminate) ltac:(discriminate)
                (or_intror eq_refl)) as Hthm.
  destruct (run all_resolve settle
              (addToCalendar configured (VObj [("title", VStr "丈量")])) cold)
    as [r w2].
  apply Hthm.
Defined.

Lemma addToCalendar_default_time_witness :
  let event := VObj [("title", VStr "丈量"); ("date", VStr "2025-06-01")] in
  run all_resolve settle (ensureGapiClient configured) warm = (Returned tt, warm) ∧
  Date_parse "2025-06-01 10:00" = Some 1748743200000%Z ∧
  (Z.abs (1748743200000 + 3600000) ≤ 8640000000000000)%Z ∧
  trace (run all_resolve settle (addToCalendar configured event) warm).2
    = [ CalendarEventsInsert "primary"
          (CalendarResource (VStr "丈量") ""
             (EventTime "2025-06-01T02:00:00.000Z" "Asia/Taipei")
             (EventTime "2025-06-01T03:00:00.000Z" "Asia/Taipei")) ].
Proof.
  split; [reflexivity|]. split; [vm_compute; reflexivity|].
  split; [vm_compute; discriminate|].
  pose proof (@addToCalendar_default_time numbers builtins
                configured all_resolve warm warm
                1748743200000%Z eq_refl
                ltac:(vm_compute; reflexivity)
                ltac:(vm_compute; discriminate)) as Hthm.
  cbv zeta in Hthm.
  destruct (run all_resolve settle
              (addToCalendar configured
                 (VObj [("title", VStr "丈量"); ("date", VStr "2025-06-01")]))
              warm) as [r w2].
  destruct Hthm as [Htrace _]. simpl. rewrite Htrace. vm_compute. reflexivity.
Defined.

Lemma bootstrap_twice_witness :
  gapiInited (state_of cold) = false ∧ window_gapi (state_of cold) = false ∧
  run all_resolve settle (ensureGapiClient configured)
    (run all_resolve settle (ensureGapiClient configured) cold).2
  = (Returned tt, (run all_resolve settle (ensureGapiClient configured) cold).2) ∧
  ∃ sys1 sys2,
    exec all_resolve settle [Spawn (ensureGapiClient configured)]
      (System [] cold) = Some sys1 ∧
    exec all_resolve settle
      (Spawn (ensureGapiClient configured)
         :: List.map Step (repeat 0%nat 6 ++ repeat 1%nat 6)) sys1 = Some sys2 ∧
    outcomes_of sys1 = [None] ∧
    outcomes_of sys2 = [Some (Returned tt); Some (Returned tt)] ∧
    count is_client_init (trace (shared sys2)) = 2%nat ∧
    count is_script_load (trace (shared sys2)) = 2%nat.
Proof.
  split; [reflexivity|]. split; [reflexivity|].
  destruct (bootstrap_twice configured all_resolve cold eq_refl eq_refl)
    as [Hseq Hover].
  split; [exact (proj1 (Hseq _ eq_refl))|].
  assert (Hc : match exec all_resolve settle
                       [Spawn (ensureGapiClient configured)] (System [] cold)
               with
               | Some s1 =>
                   match exec all_resolve settle
                           (Spawn (ensureGapiClient configured)
                              :: List.map Step
                                   (repeat 0%nat 6 ++ repeat 1%nat 6)) s1
                   with
                   | Some s2 => Some (outcomes_of s1, outcomes_of s2)
                   | None => None
                   end
               | None => None
               end = Some ([None], [Some (Returned tt); Some (Returned tt)]))
    by (vm_compute; reflexivity).
  destruct (exec all_resolve settle [Spawn (ensureGapiClient configured)]
              (System [] cold)) as [sys1|] eqn:Hfirst; [|discriminate].
  destruct (exec all_resolve settle
              (Spawn (ensureGapiClient configured)
                 :: List.map Step (repeat 0%nat 6 ++ repeat 1%nat 6)) sys1)
    as [sys2|] eqn:Hsecond; [|discriminate].
  injection Hc as Hout1 Hout2.
  exists sys1, sys2. split; [reflexivity|]. split; [exact Hsecond|].
  split; [exact Hout1|]. split; [exact Hout2|].
  assert (Hbusy : ∀ r, pool sys1 ≠ [Finished r]).
  { intros r Hr. unfold outcomes_of in Hout1. rewrite Hr in Hout1.
    discriminate. }
  assert (Hdone : pool sys2 = [Finished (Returned tt); Finished (Returned tt)]).
  { unfold outcomes_of in Hout2.
    destruct (pool sys2) as [|t0 [|t1 [|t2 rest]]]; try discriminate.
    destruct t0, t1; try discriminate. simpl in Hout2. congruence. }
  destruct (Hover [] _ sys1 sys2 Hfirst Hbusy Hsecond Hdone)
    as (Hinit & _ & Hload).
  split; [exact Hinit|exact (Hload eq_refl)].
Defined.

End Examples.

(* ================================================================= *)
(** * More on the sheet mapper *)

Section ValueFacts.
Context `{Numbers}.

Lemma get_some (v : value) k x : get v k = Some x → x = opt_get v k.
Proof. destruct v; simpl; intros Hx; congruence. Qed.


End ValueFacts.

Section MapperMore.
Context `{Builtins}.

Lemma foldl_set_add_first keys : ∀ acc,
  foldl set_add acc keys
  = (acc ++ filter (fun k => k ∉ acc) (first_occurrences keys))%list.
Proof.
  induction keys as [|k keys IH]; intros acc; simpl.
  - rewrite app_nil_r. reflexivity.
  - rewrite IH. unfold set_add. case_decide as Hin.
    + rewrite filter_cons_False by (intros Hn; contradiction).
      rewrite list_filter_filter. f_equal.
      apply list_filter_iff. intros x. split.
      * intros Hx. split; [exact Hx|]. intros ->. contradiction.
      * intros [Hx _]. exact Hx.
    + rewrite filter_cons_True by assumption.
      rewrite <- app_assoc. simpl. do 2 f_equal.
      rewrite list_filter_filter. apply list_filter_iff. intros x.
      rewrite elem_of_app, list_elem_of_singleton. split.
      * intros Hx. split; [intros Ha|intros Hk]; apply Hx; auto.
      * intros [Ha Hk] [Hx|Hx]; contradiction.
Qed.

(** X1. The header [syncToSheet] writes holds every key of every item
    once, in the order in which the keys first appear when the items are
    gone through in order: [Array.from(new Set(keys))] keeps the first
    occurrence of each key. *)
Theorem allKeys_first_occurrences (values : list value) :
  allKeys values = first_occurrences (List.flat_map item_keys values).
Proof.
  unfold allKeys, Array_from_Set. rewrite foldl_set_add_first. simpl.
  induction (first_occurrences _) as [|k l IH]; [reflexivity|].
  rewrite filter_cons_True by apply not_elem_of_nil. f_equal. exact IH.
Qed.

(** X2. The grid written for any items is rectangular: a header and one
    row per item, no key twice in the header, and every row as long as
    the header. *)
Theorem sheet_rows_rectangular (values : list value) :
  length (sheet_rows values) = S (length values) ∧
  NoDup (allKeys values) ∧
  ∀ row, row ∈ sheet_rows values → length row = length (allKeys values).
Proof.
  unfold sheet_rows. split; [simpl; rewrite length_map; reflexivity|].
  split; [apply allKeys_NoDup|].
  intros row [->|Hrow]%elem_of_cons; [reflexivity|].
  apply list_elem_of_In, in_map_iff in Hrow as (item & <- & _).
  unfold sheet_row. apply length_map.
Qed.

Lemma fill_object_last header : ∀ i row obj j k,
  header !! j = Some k → k ≠ "" → k ≠ "__proto__" →
  (∀ j', (j < j')%nat → header !! j' ≠ Some k) →
  fill_object header i row obj !! k = Some (default "" (row !! (i + j)%nat)).
Proof.
  induction header as [|key rest IH]; intros i row obj j k Hj Hk Hp Hlast;
    [discriminate|].
  simpl. destruct j as [|j]; simpl in Hj.
  - injection Hj as ->. rewrite fill_object_absent.
    + rewrite !decide_False by assumption.
      rewrite lookup_insert_eq, Nat.add_0_r. reflexivity.
    + left. intros [j' Hj']%list_elem_of_lookup.
      apply (Hlast (S j')); [lia|exact Hj'].
  - rewrite (IH (S i) row _ j k Hj Hk Hp).
    + replace (S i + j)%nat with (i + S j)%nat by lia. reflexivity.
    + intros j' Hlt. apply (Hlast (S j')). lia.
Qed.

(** X3. Reading any grid, the object made of a row has no property
    with the empty key, has no key outside the header other than [id],
    and holds under a key of the header the cell of the last column with
    that key, the empty text when the row is too short to have one.
    Objects are plain maps here; [__proto__], which JavaScript does not
    store as a property, is left out. *)
Theorem read_grid_columns header rows sheetName i row obj :
  rows !! i = Some row →
  sheetValuesToObjects (Some (header :: rows)) sheetName !! i = Some obj →
  obj !! "" = None ∧
  (∀ k, k ∉ header → k ≠ "id" → obj !! k = None) ∧
  (∀ j k, header !! j = Some k → k ≠ "" → k ≠ "id" → k ≠ "__proto__" →
     (∀ j', (j < j')%nat → header !! j' ≠ Some k) →
     obj !! k = Some (default "" (row !! j))).
Proof.
  intros Hrow Hobj. simpl in Hobj.
  rewrite list_lookup_imap, Hrow in Hobj. injection Hobj as <-.
  split; [|split].
  - rewrite row_to_object_other by discriminate.
    rewrite fill_object_absent by (right; left; reflexivity).
    apply lookup_empty.
  - intros k Hk Hid. rewrite row_to_object_other by assumption.
    rewrite fill_object_absent by (left; assumption). apply lookup_empty.
  - intros j k Hj Hk Hid Hp Hlast. rewrite row_to_object_other by assumption.
    apply (fill_object_last header 0 row ∅ j k Hj Hk Hp Hlast).
Qed.

Lemma own_record_of (fields : list (string * string)) k :
  own (List.map (fun kv => (kv.1, VStr kv.2)) fields) k
  = VStr <$> (list_to_map fields : gmap string string) !! k.
Proof.
  induction fields as [|[k' s] fields IH]; simpl; [rewrite lookup_empty; reflexivity|].
  destruct (String.eqb_spec k' k) as [->|Hne].
  - rewrite lookup_insert_eq. reflexivity.
  - rewrite lookup_insert_ne by assumption. exact IH.
Qed.

Lemma cell_record_of (fields : list (string * string)) k :
  cell (opt_get (record_of fields) k)
  = default "" ((list_to_map fields : gmap string string) !! k).
Proof.
  unfold record_of. simpl. rewrite own_record_of.
  destruct (_ !! k); reflexivity.
Qed.

(** X4. Records that share one list of fields, with no empty key and a
    non-empty [id] each, survive the sheet unchanged: reading the grid
    written for them gives the same records, in the same order. *)
Theorem read_records_survive sheetName keys
    (records : list (list (string * string))) :
  "" ∉ keys → "__proto__" ∉ keys → "id" ∈ keys →
  Forall (fun fields => List.map fst fields = keys ∧
            ∃ s, (list_to_map fields : gmap string string) !! "id" = Some s
                 ∧ s ≠ "") records →
  sheetValuesToObjects (Some (sheet_rows (record_of <$> records))) sheetName
  = (fun fields => list_to_map fields) <$> records.
Proof.
  intros Hempty Hproto Hid Hall.
  destruct (sheet_rows_read_back sheetName (record_of <$> records))
    as [Hlen Hback].
  apply list_eq. intros i. rewrite list_lookup_fmap.
  destruct (records !! i) as [fields|] eqn:Hi.
  - assert (Hitem : (record_of <$> records) !! i = Some (record_of fields))
      by (rewrite list_lookup_fmap, Hi; reflexivity).
    destruct (Hback i _ Hitem) as (obj & Hobj & Hother & Hobjid).
    rewrite Hobj. simpl. f_equal.
    destruct (proj1 (Forall_lookup _ _) Hall i fields Hi)
      as (Hkeys & s & Hs & Hne).
    assert (Hmem : ∀ k, k ∈ allKeys (record_of <$> records) ↔ k ∈ keys).
    { intros k. rewrite allKeys_elem. split.
      - intros (item & Hin & Hk).
        apply list_elem_of_fmap in Hin as (fs & -> & Hfs).
        apply (proj1 (Forall_forall _ _) Hall) in Hfs as [<- _].
        unfold item_keys, record_of in Hk. simpl in Hk.
        change (List.map ?f ?l) with (f <$> l) in *.
        rewrite <- list_fmap_compose in Hk. exact Hk.
      - intros Hk. exists (record_of fields). split.
        + apply list_elem_of_fmap. exists fields. split; [reflexivity|].
          eapply list_elem_of_lookup_2, Hi.
        + unfold item_keys, record_of. simpl.
          change (List.map ?f ?l) with (f <$> l) in *.
          rewrite <- list_fmap_compose. rewrite <- Hkeys in Hk. exact Hk. }
    apply map_eq. intros k. destruct (decide (k = "id")) as [->|Hk].
    + rewrite Hobjid, cell_record_of, Hs. simpl.
      rewrite decide_True; [reflexivity|].
      split; [apply Hmem, Hid|assumption].
    + rewrite (Hother k Hk), cell_record_of.
      destruct (decide (k ∈ keys)) as [Hin|Hnin].
      * rewrite decide_True
          by (repeat split; [apply Hmem, Hin|intros ->; contradiction
                            |intros ->; contradiction]).
        destruct (list_to_map fields !! k) as [s'|] eqn:Hlk; [reflexivity|].
        exfalso. apply not_elem_of_list_to_map in Hlk. apply Hlk.
        change (fields.*1) with (fst <$> fields).
        change (List.map fst fields) with (fst <$> fields) in Hkeys.
        rewrite Hkeys. exact Hin.
      * rewrite decide_False by (intros [Hin _]; apply Hnin, Hmem, Hin).
        symmetry. apply not_elem_of_list_to_map.
        change (fields.*1) with (fst <$> fields).
        change (List.map fst fields) with (fst <$> fields) in Hkeys.
        rewrite Hkeys. exact Hnin.
  - apply lookup_ge_None. rewrite Hlen, length_fmap.
    apply lookup_ge_None in Hi. exact Hi.
Qed.
End MapperMore.

(* ================================================================= *)
(** * More on the service facade *)

Section ServiceMore.
Context `{Builtins}.
Variable cfg : config.
Variable env : nat → request → outcome.

#[local] Arguments settle : simpl never.
#[local] Abbreviation run := (run env settle).
#[local] Abbreviation issued := (issued env settle).

#[local] Notation "x ← p ; q" := (bind p (fun x => q))
  (at level 20, p at level 100, q at level 200, right associativity,
   only parsing).
#[local] Notation "p ;; q" := (bind p (fun _ => q))
  (at level 100, q at level 200, right associativity, only parsing).

Lemma run_field_defined res k (w : world gs_state request) :
  res ≠ VUndefined → res ≠ VNull →
  run (field (Resolved res) k) w = (Returned (opt_get res k), w).
Proof.
  intros Hu Hn. unfold field. rewrite get_defined by assumption. reflexivity.
Qed.

(** X5. With records to write (objects, or [null] or [undefined] in
    their place, none of whose keys is a name that objects inherit from
    [Object.prototype]), [syncToSheet] clears the range before it writes.
    When the clearing is rejected the call fails with that error and no
    update is issued; when the update is rejected the call fails after
    the range was cleared; when both resolve the call returns the
    [result] of the update. The module's state is left as the bootstrap
    left it in all three cases. *)
Theorem syncToSheet_clear_before_update sheetName dataArray w w1 :
  run (ensureGapiClient cfg) w = (Returned tt, w1) →
  array_items dataArray ≠ [] →
  forallb (fun item => match item with
                       | VNull | VUndefined | VObj _ => true
                       | _ => false
                       end) (array_items dataArray) = true →
  forallb (fun k => negb (inherited k)) (allKeys (array_items dataArray))
    = true →
  let clear := SheetsValuesClear (SPREADSHEET_ID cfg) (sheetName +:+ "!A:Z") in
  let update :=
    SheetsValuesUpdate (SPREADSHEET_ID cfg) (sheetName +:+ "!A1") "RAW"
      (sheet_rows (array_items dataArray)) in
  let n := length (trace w1) in
  (∀ e, env n clear = inr e →
     run (syncToSheet cfg sheetName dataArray) w
       = (Thrown e, World (state_of w1) (trace w1 ++ [clear]))) ∧
  (∀ ok e, env n clear = inl ok → env (S n) update = inr e →
     run (syncToSheet cfg sheetName dataArray) w
       = (Thrown e, World (state_of w1) (trace w1 ++ [clear; update]))) ∧
  (∀ ok res, env n clear = inl ok → env (S n) update = inl (Resolved res) →
     res ≠ VUndefined → res ≠ VNull →
     run (syncToSheet cfg sheetName dataArray) w
       = (Returned (opt_get res "result"),
          World (state_of w1) (trace w1 ++ [clear; update]))).
Proof.
  intros Hboot Hitems _ _ clear update n.
  assert (Hrun : run (syncToSheet cfg sheetName dataArray) w =
    match env n clear with
    | inl _ =>
        match env (S n) update with
        | inl res =>
            ((run (field res "result")
                (World (state_of w1) (trace w1 ++ [clear; update]))).1,
             World (state_of w1) (trace w1 ++ [clear; update]))
        | inr e => (Thrown e, World (state_of w1) (trace w1 ++ [clear; update]))
        end
    | inr e => (Thrown e, World (state_of w1) (trace w1 ++ [clear]))
    end).
  { unfold syncToSheet. rewrite run_behind_bootstrap, Hboot.
    rewrite decide_False
      by (intros Hlen; apply Hitems, nil_length_inv, Hlen).
    rewrite run_bind, run_call. fold clear. cbv zeta. fold n.
    rewrite settle_not_script by reflexivity.
    destruct (env n clear) as [ok|e]; [|reflexivity].
    rewrite run_bind, run_call. cbn [trace state_of]. fold update.
    rewrite length_app. cbn [length]. rewrite Nat.add_1_r. fold n.
    rewrite settle_not_script by reflexivity. cbv zeta.
    rewrite <- app_assoc. cbn [app].
    destruct (env (S n) update) as [res|e]; [|reflexivity].
    pose proof (run_field env res "result"
                  (World (state_of w1) (trace w1 ++ [clear; update]))) as Hf.
    destruct (run (field res "result") _) as [r w2]. simpl in Hf.
    subst w2. reflexivity. }
  split; [|split].
  - intros e He. rewrite Hrun, He. reflexivity.
  - intros ok e Hc Hu. rewrite Hrun, Hc, Hu. reflexivity.
  - intros ok res Hc Hu Hund Hnull. rewrite Hrun, Hc, Hu.
    rewrite run_field_defined by assumption. reflexivity.
Qed.

(** X6. A bootstrap that fails leaves the client not initialised, so
    the next call tries again; when the client id or the API key is not
    configured it fails on the configuration check, before any request is
    issued and without touching anything. *)
Theorem ensureGapiClient_failure w e w1 :
  run (ensureGapiClient cfg) w = (Thrown e, w1) →
  gapiInited (state_of w) = false ∧
  gapiInited (state_of w1) = false ∧
  (config_missing cfg = true →
     e = Error_ "Missing CLIENT_ID or API_KEY" ∧ w1 = w).
Proof.
  unfold config_missing. unfold ensureGapiClient, loadGapiScript. cbn.
  destruct (gapiInited (state_of w)) eqn:Hin; cbn; [discriminate|].
  destruct (negb (env_truthy (CLIENT_ID cfg)) || negb (env_truthy (API_KEY cfg)))
    eqn:Hcfg; cbn.
  { intros [= <- <-]. repeat split; auto. }
  destruct (window_gapi (state_of w)) eqn:Hw; cbn; unfold issue; cbn.
  - destruct (env _ (GapiLoad _)); cbn.
    + destruct (env _ (GapiClientInit _ _)); cbn; [discriminate|].
      intros [= <- <-]. cbn. rewrite !settle_gapiInited.
      repeat split; auto; discriminate.
    + intros [= <- <-]. cbn. rewrite !settle_gapiInited.
      repeat split; auto; discriminate.
  - destruct (env _ (AppendScript _)); cbn.
    + destruct (env _ (GapiLoad _)); cbn.
      * destruct (env _ (GapiClientInit _ _)); cbn; [discriminate|].
        intros [= <- <-]. cbn. rewrite !settle_gapiInited.
        repeat split; auto; discriminate.
      * intros [= <- <-]. cbn. rewrite !settle_gapiInited.
        repeat split; auto; discriminate.
    + intros [= <- <-]. cbn. rewrite !settle_gapiInited.
      repeat split; auto; discriminate.
Qed.


(** X7. Without a client id the two bootstraps fail at different
    points: [ensureGapiClient] checks the configuration first and issues
    nothing, while [ensureGisClient] loads the Identity Services script
    first and fails only afterwards, never creating a token client. *)
Theorem missing_client_id w :
  env_truthy (CLIENT_ID cfg) = false →
  gapiInited (state_of w) = false →
  gisInited (state_of w) = false →
  window_gis (state_of w) = false →
  run (ensureGapiClient cfg) w
    = (Thrown (Error_ "Missing CLIENT_ID or API_KEY"), w) ∧
  issued (ensureGisClient cfg) w = [AppendScript GIS_SCRIPT] ∧
  ∀ ok, env (length (trace w)) (AppendScript GIS_SCRIPT) = inl ok →
    run (ensureGisClient cfg) w
      = (Thrown (Error_ "Missing CLIENT_ID for GIS"),
         World (set_window_gis true (state_of w))
           (trace w ++ [AppendScript GIS_SCRIPT])).
Proof.
  intros Hid Hin Hgis Hw. split; [|split].
  - unfold ensureGapiClient. cbn. rewrite Hin, Hid. reflexivity.
  - unfold issued, ensureGisClient, loadGisScript. cbn.
    rewrite Hgis. cbn. rewrite Hw. cbn. unfold issue. cbn.
    destruct (env _ (AppendScript _)); cbn.
    + rewrite Hid. cbn. apply drop_app_length.
    + apply drop_app_length.
  - intros ok Hok. unfold ensureGisClient, loadGisScript. cbn.
    rewrite Hgis. cbn. rewrite Hw. cbn. unfold issue. cbn. rewrite Hok. cbn.
    rewrite Hid. reflexivity.
Qed.

(** X8. After [ensureGisClient] has returned, a further call does
    nothing as long as the token client it stored is truthy; had
    [initTokenClient] returned a falsy value, every further call creates
    the token client again, without loading the script again. *)
Theorem ensureGisClient_again w w1 :
  run (ensureGisClient cfg) w = (Returned tt, w1) →
  (truthy (tokenClient (state_of w1)) = true →
     run (ensureGisClient cfg) w1 = (Returned tt, w1)) ∧
  (truthy (tokenClient (state_of w1)) = false →
     issued (ensureGisClient cfg) w1 = [InitTokenClient (CLIENT_ID cfg) SCOPES]).
Proof.
  intros Hrun.
  assert (Hstate : gisInited (state_of w1) = true ∧
                   (truthy (tokenClient (state_of w1)) = false →
                    window_gis (state_of w1) = true ∧
                    env_truthy (CLIENT_ID cfg) = true)).
  { revert Hrun. unfold ensureGisClient, loadGisScript. cbn.
    destruct (gisInited (state_of w) && truthy (tokenClient (state_of w)))
      eqn:Hdone; cbn.
    { intros [= <-]. apply andb_true_iff in Hdone as [Hg Ht].
      split; [exact Hg|]. rewrite Ht. discriminate. }
    destruct (window_gis (state_of w)) eqn:Hw; cbn; unfold issue; cbn.
    - destruct (env_truthy (CLIENT_ID cfg)) eqn:Hid; cbn; [|discriminate].
      unfold issue; cbn.
      destruct (env _ (InitTokenClient _ _)); cbn; [|discriminate].
      intros [= <-]. cbn. rewrite settle_not_script by reflexivity. auto.
    - destruct (env _ (AppendScript _)) eqn:Hscript; cbn; [|discriminate].
      destruct (env_truthy (CLIENT_ID cfg)) eqn:Hid; cbn; [|discriminate].
      unfold issue; cbn.
      destruct (env _ (InitTokenClient _ _)); cbn; [|discriminate].
      intros [= <-]. cbn. rewrite settle_not_script by reflexivity. auto. }
  destruct Hstate as [Hg Hfalsy]. split.
  - intros Ht. unfold ensureGisClient. cbn. rewrite Hg, Ht. reflexivity.
  - intros Ht. destruct (Hfalsy Ht) as [Hw Hid].
    unfold issued, ensureGisClient, loadGisScript. cbn.
    rewrite Hg, Ht. cbn. rewrite Hw. cbn. rewrite Hid. cbn. unfold issue. cbn.
    destruct (env _ (InitTokenClient _ _)); cbn; apply drop_app_length.
Qed.

(** X9. While no access token is held [initClient] answers [false],
    however the bootstraps go; it issues requests of the bootstraps only
    and leaves the access token and the profile as they were. *)
Theorem initClient_signed_out w :
  truthy (accessToken (state_of w)) = false →
  ∃ w', run (initClient cfg) w = (Returned false, w') ∧
        accessToken (state_of w') = accessToken (state_of w) ∧
        currentUserProfile (state_of w')
          = currentUserProfile (state_of w) ∧
        forallb is_bootstrap (issued (initClient cfg) w) = true.
Proof.
  intros Hout. unfold issued. rewrite initClient_run.
  pose proof (ensureGapiClient_run cfg env w) as Hg.
  destruct (run (ensureGapiClient cfg) w) as [[[]|e] w1].
  - pose proof (ensureGisClient_run cfg env w1) as Hs.
    destruct Hg as ((news & Htrace & Hnews) & Hsame & _).
    destruct (run (ensureGisClient cfg) w1) as [[[]|e] w2];
      destruct Hs as ((news' & Htrace' & Hnews') & Hsame' & _);
      eexists; (split; [|split;
        [exact (proj1 (same_session_trans _ _ _ Hsame Hsame'))|split;
        [exact (proj2 (same_session_trans _ _ _ Hsame Hsame'))|]]]);
      [|simpl; rewrite Htrace', Htrace, <- app_assoc, drop_app_length,
         forallb_app, Hnews, Hnews'; reflexivity
       |reflexivity
       |simpl; rewrite Htrace', Htrace, <- app_assoc, drop_app_length,
         forallb_app, Hnews, Hnews'; reflexivity].
    destruct Hsame as (Ha & _), Hsame' as (Ha' & _).
    rewrite Ha', Ha, Hout. reflexivity.
  - destruct Hg as ((news & Htrace & Hnews) & Hsame & _).
    eexists. split; [reflexivity|]. split; [exact (proj1 Hsame)|].
    split; [exact (proj2 Hsame)|].
    simpl. rewrite Htrace, drop_app_length. exact Hnews.
Qed.

(** X10. Whenever [fetchSheetData] returns, the bootstrap has passed,
    exactly one read of the sheet's [A:Z] range was issued after it, and
    the value returned is [res.result.values] when that is truthy and the
    empty array otherwise: never a falsy value. *)
Theorem fetchSheetData_returns_values_or_empty sheetName w r w2 :
  run (fetchSheetData cfg sheetName) w = (Returned r, w2) →
  truthy r = true ∧
  ∃ w1 res,
    run (ensureGapiClient cfg) w = (Returned tt, w1) ∧
    let read := SheetsValuesGet (SPREADSHEET_ID cfg) (sheetName +:+ "!A:Z") in
    env (length (trace w1)) read = inl (Resolved res) ∧
    w2 = World (state_of w1) (trace w1 ++ [read]) ∧
    r = or_else (opt_get (opt_get res "result") "values") (VArr []).
Proof.
  unfold fetchSheetData. rewrite run_behind_bootstrap.
  destruct (run (ensureGapiClient cfg) w) as [[[]|e] w1]; [|discriminate].
  rewrite run_bind, run_call. cbv zeta.
  rewrite settle_not_script by reflexivity.
  destruct (env _ _) as [res|e] eqn:Hres; [|discriminate].
  assert (Htruthy : ∀ v, truthy (or_else v (VArr [])) = true).
  { intros v. unfold or_else. destruct (truthy v) eqn:Hv; [exact Hv|reflexivity]. }
  destruct res as [v|data]; cbn; [|discriminate].
  destruct (get v "result") as [result|] eqn:Hresult; cbn; [|discriminate].
  destruct (get result "values") as [values|] eqn:Hvalues; cbn; [|discriminate].
  intros [= <- <-]. split; [apply Htruthy|].
  eexists _, _. split; [reflexivity|]. split; [exact Hres|].
  split; [reflexivity|].
  apply get_some in Hresult, Hvalues. subst. reflexivity.
Qed.




(** X13. [createDriveFolder] never looks for an existing folder: after
    the bootstrap it issues exactly one create request, named after the
    client or 未命名客戶 when the name is falsy, and calling it again with
    the same name issues the same create request again. It returns the
    [webViewLink] of what was created. *)
Theorem createDriveFolder_always_creates clientName w w1 :
  run (ensureGapiClient cfg) w = (Returned tt, w1) →
  let create :=
    DriveFilesCreate
      (VObj [ ("name", or_else clientName (VStr "未命名客戶"));
              ("mimeType", VStr "application/vnd.google-apps.folder");
              ("parents", VArr (root_parents cfg)) ])
      "id, name, webViewLink" in
  let '(r, w2) := run (createDriveFolder cfg clientName) w in
  w2 = World (state_of w1) (trace w1 ++ [create]) ∧
  (∀ e, env (length (trace w1)) create = inr e → r = Thrown e) ∧
  (∀ res, env (length (trace w1)) create = inl (Resolved res) →
     opt_get res "result" ≠ VUndefined → opt_get res "result" ≠ VNull →
     r = Returned (opt_get (opt_get res "result") "webViewLink")) ∧
  issued (createDriveFolder cfg clientName) w2 = [create].
Proof.
  intros Hboot create.
  assert (Hinit : gapiInited (state_of w1) = true).
  { pose proof (ensureGapiClient_run cfg env w) as Hg. rewrite Hboot in Hg.
    apply Hg. reflexivity. }
  assert (Hrun : ∀ w0 w0', run (ensureGapiClient cfg) w0 = (Returned tt, w0') →
    run (createDriveFolder cfg clientName) w0 =
    let w' := World (state_of w0') (trace w0' ++ [create]) in
    match env (length (trace w0')) create with
    | inl res =>
        ((run (result ← field res "result" ; need (get result "webViewLink"))
            w').1, w')
    | inr e => (Thrown e, w')
    end).
  { intros w0 w0' Hb. unfold createDriveFolder.
    rewrite run_behind_bootstrap, Hb, run_bind, run_call.
    change (DriveFilesCreate _ _) with create. cbv zeta.
    rewrite settle_not_script by reflexivity.
    destruct (env _ create) as [res|e]; [|reflexivity].
    rewrite run_bind.
    pose proof (run_field env res "result"
                  (World (state_of w0') (trace w0' ++ [create]))) as Hf.
    destruct (run (field res "result") _) as [[result|e] w']; simpl in Hf;
      subst w'; [|reflexivity].
    unfold need. destruct (get result "webViewLink"); reflexivity. }
  unfold issued. rewrite (Hrun w w1 Hboot). cbv zeta.
  set (w2 := World (state_of w1) (trace w1 ++ [create])).
  assert (Hagain : drop (length (trace w2))
            (trace (run (createDriveFolder cfg clientName) w2).2) = [create]).
  { rewrite (Hrun w2 w2 (ensureGapiClient_inited cfg env w2 Hinit)). cbv zeta.
    destruct (env _ create); apply drop_app_length. }
  destruct (env (length (trace w1)) create) as [[res|data]|e] eqn:Hc.
  - split; [reflexivity|]. split; [discriminate|]. split; [|exact Hagain].
    intros res' [= <-] Hu Hn. cbn [field].
    destruct res; try (exfalso; apply Hu; reflexivity);
      cbn; rewrite (get_defined _ "webViewLink") by assumption; reflexivity.
  - split; [reflexivity|]. split; [discriminate|].
    split; [discriminate|exact Hagain].
  - split; [reflexivity|]. split; [intros e' [= <-]; reflexivity|].
    split; [discriminate|exact Hagain].
Qed.





End ServiceMore.

(* ================================================================= *)
(** * More on the token-exchange relay *)

Section RelayMore.
Context `{Numbers}.
Variable penv : process_env.
Variable env : nat → relay_request → relay_response + error.

#[local] Abbreviation run := (run env relay_settle).

(** The response once the CORS headers are set. *)
#[local] Abbreviation prepared req w :=
  (World (HttpResponse (with_cors req (state_of w)) (status (state_of w))
            (payload (state_of w)) (ended (state_of w)))
     (trace w)).

Lemma handler_not_post_run req (w : world http_response relay_request) :
  method req ≠ "POST" →
  run (handler penv req) w =
  (Returned tt,
   World (if decide (method req = "OPTIONS")
          then HttpResponse (with_cors req (state_of w)) (Some 204%Z)
                 (payload (state_of w)) true
          else HttpResponse (with_cors req (state_of w)) (Some 405%Z)
                 (Some (VObj [("error", VStr "method_not_allowed")])) true)
     (trace w)).
Proof.
  intros Hpost. unfold handler, with_cors.
  rewrite !run_bind.
  destruct (origin_header req) as [o|]; cbn [default];
    destruct (decide (_ ∈ allowlist)); cbn;
    destruct (decide (method req = "OPTIONS")); cbn; try reflexivity;
    rewrite decide_True by assumption; reflexivity.
Qed.

(** The guarded part of a POST always sends an answer, and leaves the
    headers as they are. *)
Lemma guarded_part_answers req (w : world http_response relay_request) :
  let '(r, w') :=
    run (try_catch
        (let b := or_else (body req) (VObj []) in
         if negb (truthy (opt_get b "code"))
            || negb (truthy (opt_get b "codeVerifier"))
            || negb (truthy (opt_get b "redirectUri"))
         then status_json 400 INVALID_REQUEST
         else
           match GOOGLE_CLIENT_ID penv, GOOGLE_CLIENT_SECRET penv with
           | Some clientId, Some clientSecret =>
               if env_truthy (Some clientId) && env_truthy (Some clientSecret)
               then exchange (opt_get b "code") (opt_get b "codeVerifier")
                      (opt_get b "redirectUri") clientId clientSecret
               else status_json 500 SERVER_MISCONFIGURED
           | _, _ => status_json 500 SERVER_MISCONFIGURED
           end)
        (fun e => status_json 500
                    (error_body (VStr "server_error") (error_description e))))
      w in
  r = Returned tt ∧ ended (state_of w') = true ∧
  is_Some (status (state_of w')) ∧ is_Some (payload (state_of w')) ∧
  headers (state_of w') = headers (state_of w).
Proof.
  cbv zeta. set (b := or_else (body req) (VObj [])).
  destruct (negb (truthy (opt_get b "code"))
            || negb (truthy (opt_get b "codeVerifier"))
            || negb (truthy (opt_get b "redirectUri")));
    [cbn; repeat split; eauto|].
  destruct (GOOGLE_CLIENT_ID penv) as [cid|],
           (GOOGLE_CLIENT_SECRET penv) as [sec|];
    try (cbn; repeat split; eauto; fail).
  destruct (env_truthy (Some cid) && env_truthy (Some sec));
    [|cbn; repeat split; eauto].
  unfold exchange. cbn. unfold issue. cbn.
  destruct (env _ (Fetch _ _ _ _)) as [[ok st|d]|e]; cbn;
    [|repeat split; eauto|repeat split; eauto].
  unfold issue. cbn.
  destruct (env _ ResponseJson) as [parsed|e]; cbn; [|repeat split; eauto].
  destruct ok; cbn; repeat split; eauto.
Qed.

(** X16. The relay answers every request: whatever the method, the
    body, the configuration and the behaviour of the provider, the
    handler returns without throwing, having set a status and ended the
    response, with the CORS headers added to the headers it found. *)
Theorem handler_always_answers req w :
  let '(r, w') := run (handler penv req) w in
  r = Returned tt ∧ ended (state_of w') = true ∧
  is_Some (status (state_of w')) ∧
  headers (state_of w') = with_cors req (state_of w).
Proof.
  destruct (decide (method req = "POST")) as [Hpost|Hpost].
  - rewrite (handler_post_run penv env req w Hpost).
    pose proof (guarded_part_answers req (prepared req w)) as Hg.
    destruct (run _ _) as [r w'].
    destruct Hg as (Hr & He & Hs & _ & Hh). auto.
  - rewrite (handler_not_post_run req w Hpost).
    destruct (decide (method req = "OPTIONS")); cbn; repeat split; eauto.
Qed.


(** X17. On a fresh response, [Access-Control-Allow-Origin] is set
    exactly when the request's origin is on the allowlist, and then to
    that origin, with [Vary: Origin] beside it; the allowed methods and
    headers are announced in every case, whichever way the request
    ends. *)
Theorem handler_cors_origin req trace0 :
  let w' := (run (handler penv req) (World fresh_response trace0)).2 in
  headers (state_of w') !! "Access-Control-Allow-Origin"
    = match origin_header req with
      | Some o => if decide (o ∈ allowlist) then Some o else None
      | None => None
      end ∧
  headers (state_of w') !! "Vary"
    = (if decide (default "" (origin_header req) ∈ allowlist)
       then Some "Origin" else None) ∧
  headers (state_of w') !! "Access-Control-Allow-Methods" = Some "POST, OPTIONS" ∧
  headers (state_of w') !! "Access-Control-Allow-Headers" = Some "Content-Type".
Proof.
  cbv zeta.
  assert (Hh : headers (state_of (run (handler penv req)
                                    (World fresh_response trace0)).2)
               = with_cors req fresh_response).
  { destruct (decide (method req = "POST")) as [Hpost|Hpost].
    - rewrite (handler_post_run penv env req _ Hpost).
      pose proof (guarded_part_answers req
                    (prepared req (World fresh_response trace0))) as Hg.
      destruct (run _ _) as [r w']. apply Hg.
    - rewrite (handler_not_post_run req _ Hpost).
      destruct (decide (method req = "OPTIONS")); reflexivity. }
  rewrite Hh. unfold with_cors, fresh_response. cbn [headers].
  assert (Hempty : "" ∉ allowlist).
  { unfold allowlist. rewrite !elem_of_cons, elem_of_nil.
    intros [Hx|[Hx|[Hx|[]]]]; discriminate. }
  destruct (origin_header req) as [o|]; cbn [default];
    [destruct (decide (o ∈ allowlist))|rewrite decide_False by exact Hempty];
    repeat split; simplify_map_eq; reflexivity.
Qed.

(** X18. A request that is not a POST never reaches the provider: an
    OPTIONS request is answered 204 with no body, any other method 405
    with [method_not_allowed], and nothing is fetched. *)
Theorem handler_other_methods req w :
  method req ≠ "POST" →
  let '(r, w') := run (handler penv req) w in
  r = Returned tt ∧ trace w' = trace w ∧
  (method req = "OPTIONS" →
     status (state_of w') = Some 204%Z ∧
     payload (state_of w') = payload (state_of w)) ∧
  (method req ≠ "OPTIONS" →
     status (state_of w') = Some 405%Z ∧
     payload (state_of w')
       = Some (VObj [("error", VStr "method_not_allowed")])).
Proof.
  intros Hpost. rewrite (handler_not_post_run req w Hpost).
  destruct (decide (method req = "OPTIONS")) as [Ho|Ho]; cbn;
    repeat split; auto; contradiction.
Qed.





End RelayMore.

(* ================================================================= *)
(** * The calendar as the page shows it *)

Section PageFacts.
Context `{Numbers}.

Lemma calendar_entry_shown evt entry :
  calendar_entry evt = Some (Some entry) → shown entry.
Proof.
  unfold calendar_entry. destruct (get evt "start") as [start0|]; [|discriminate].
  cbv zeta.
  destruct (if truthy (opt_get (or_else start0 (VObj [])) "date") then _ else _)
    as [date|]; [|discriminate].
  destruct (if truthy (opt_get (or_else start0 (VObj [])) "dateTime") then _ else _)
    as [time|]; [|discriminate].
  destruct (truthy date) eqn:Hdate; [|discriminate].
  intros [= <-]. eexists _, _, _, _. split; [reflexivity|]. split; [|exact Hdate].
  unfold or_else. destruct (truthy (opt_get evt "summary")) eqn:Hs; [exact Hs|].
  reflexivity.
Qed.

Lemma map_entries_spec events : ∀ entries,
  map_entries events = Some entries →
  length entries = length events ∧
  ∀ entry, Some entry ∈ entries → shown entry.
Proof.
  induction events as [|evt events IH]; intros entries; simpl.
  - intros [= <-]. split; [reflexivity|]. intros entry Hin.
    apply elem_of_nil in Hin. contradiction.
  - destruct (calendar_entry evt) as [entry0|] eqn:Hentry; [|discriminate].
    destruct (map_entries events) as [rest|]; [|discriminate].
    intros [= <-]. destruct (IH rest eq_refl) as [Hlen Hshown].
    split; [simpl; rewrite Hlen; reflexivity|].
    intros entry [Hhere|Hin]%elem_of_cons; [|apply Hshown, Hin].
    subst entry0. apply (calendar_entry_shown evt), Hentry.
Qed.

(** X21. What [loadAllData] keeps of the calendar: every entry is a
    record of [id], [title], [date] and [time] whose title and date are
    truthy; there are at most as many entries as events, and none when
    the service returned a falsy value. *)
Theorem calendar_entries_shown calendarEvents entries :
  calendar_entries calendarEvents = Some entries →
  (truthy calendarEvents = false → entries = []) ∧
  (∀ events, calendarEvents = VArr events →
     (length entries ≤ length events)%nat) ∧
  ∀ entry, entry ∈ entries →
    ∃ id title date time,
      entry = VObj [("id", id); ("title", title); ("date", date); ("time", time)]
      ∧ truthy title = true ∧ truthy date = true.
Proof.
  unfold calendar_entries.
  destruct (or_else calendarEvents (VArr [])) as [| | | | |events|] eqn:Hevents;
    try discriminate.
  destruct (map_entries events) as [mapped|] eqn:Hmap; [|discriminate].
  intros [= <-]. destruct (map_entries_spec events mapped Hmap) as [Hlen Hshown].
  split; [|split].
  - intros Hfalsy. unfold or_else in Hevents. rewrite Hfalsy in Hevents.
    injection Hevents as <-. simpl in Hmap. injection Hmap as <-. reflexivity.
  - intros events' ->. unfold or_else in Hevents. simpl in Hevents.
    injection Hevents as <-. rewrite <- Hlen. clear.
    induction mapped as [|[entry|] mapped IH]; cbn in *; lia.
  - intros entry Hin. apply list_elem_of_omap in Hin as (o & Ho & Hid).
    unfold id in Hid. subst o. apply Hshown, Ho.
Qed.

Lemma on_day_cons k evt l :
  on_day k (evt :: l) =
  if truthy (opt_get evt "date") && String.eqb (String_ (opt_get evt "date")) k
  then evt :: on_day k l else on_day k l.
Proof. reflexivity. Qed.

Lemma group_events_spec l : ∀ acc m,
  group_events acc l = Some m →
  ∀ k, m !! k = match acc !! k, on_day k l with
                | None, [] => None
                | o, es => Some (default [] o ++ es)%list
                end.
Proof.
  induction l as [|evt l IH]; intros acc m; cbn [group_events].
  - intros [= <-] k. change (on_day k []) with (@nil value).
    destruct (acc !! k); [rewrite app_nil_r|]; reflexivity.
  - unfold group_event.
    destruct (get evt "date") as [key|] eqn:Hkey; [|discriminate].
    apply get_some in Hkey. subst key.
    intros Hm k. rewrite on_day_cons.
    destruct (truthy (opt_get evt "date")) eqn:Hdate; cbn [andb].
    + destruct (inherited _); [discriminate|].
      rewrite (IH _ _ Hm k).
      destruct (String.eqb_spec (String_ (opt_get evt "date")) k) as [->|Hne].
      * rewrite lookup_insert_eq.
        destruct (acc !! k); unfold default, from_option, id;
          rewrite <- ?app_assoc; reflexivity.
      * rewrite lookup_insert_ne by assumption. reflexivity.
    + apply (IH _ _ Hm k).
Qed.

(** X22. [eventsByDate] groups by day: when it is defined, the key of a
    day is present exactly when some event has that date, and then holds
    the events of that date in their order; events with a falsy date are
    in no group. *)
Theorem eventsByDate_groups events m :
  eventsByDate events = Some m →
  ∃ l, or_else events (VArr []) = VArr l ∧
    ∀ k, m !! k = match on_day k l with
                  | [] => None
                  | es => Some es
                  end.
Proof.
  unfold eventsByDate.
  destruct (or_else events (VArr [])) as [| | | | |l|]; try discriminate.
  intros Hm. exists l. split; [reflexivity|]. intros k.
  rewrite (group_events_spec l ∅ m Hm k), lookup_empty. reflexivity.
Qed.



(** X24. Nothing is lost between [loadAllData] and the calendar grid:
    every entry kept by [loadAllData] is found in the group of its own
    date. *)
Theorem entries_all_grouped calendarEvents entries m :
  calendar_entries calendarEvents = Some entries →
  eventsByDate (VArr entries) = Some m →
  ∀ entry, entry ∈ entries →
    ∃ es, m !! String_ (opt_get entry "date") = Some es ∧ entry ∈ es.
Proof.
  unfold calendar_entries, eventsByDate.
  change (or_else (VArr entries) (VArr [])) with (VArr entries).
  destruct (or_else calendarEvents (VArr [])) as [| | | | |events|];
    try discriminate.
  destruct (map_entries events) as [mapped|] eqn:Hmap; [|discriminate].
  intros [= <-] Hm entry Hin.
  destruct (map_entries_spec events mapped Hmap) as [_ Hshown].
  assert (Hentry : shown entry).
  { apply list_elem_of_omap in Hin as (o & Ho & Hid).
    unfold id in Hid. subst o. apply Hshown, Ho. }
  destruct Hentry as (i & title & date & time & Heq & _ & Hdate).
  assert (Hday : entry ∈ on_day (String_ (opt_get entry "date"))
                            (omap id mapped)).
  { unfold on_day. apply list_elem_of_In, filter_In. split.
    - apply list_elem_of_In, Hin.
    - rewrite Heq. change (opt_get (VObj _) "date") with date.
      rewrite Hdate, String.eqb_refl. reflexivity. }
  rewrite (group_events_spec _ ∅ m Hm), lookup_empty.
  destruct (on_day _ (omap id mapped)) as [|e es].
  - apply elem_of_nil in Hday. contradiction.
  - exists (e :: es). split; [reflexivity|exact Hday].
Qed.

End PageFacts.

(* ================================================================= *)
(** * Signing in and out *)

Section SessionFacts.
Context `{Builtins}.
Variable cfg : config.
Variable env : nat → session_request → outcome.

#[local] Arguments settle : simpl never.
#[local] Abbreviation service_run := (run (service_env env) settle).
#[local] Abbreviation service_issued := (issued (service_env env) settle).
#[local] Abbreviation session_run := (run env session_settle).
#[local] Abbreviation session_issued := (issued env session_settle).

(** A program of the service does among the requests of the session
    what it does on its own. *)
Lemma run_lift {A} (p : gs_prog A) :
  ∀ (w : world gs_state session_request) (w0 : world gs_state request),
  state_of w0 = state_of w → length (trace w0) = length (trace w) →
  (session_run (lift p) w).1 = (service_run p w0).1 ∧
  state_of (session_run (lift p) w).2
    = state_of (service_run p w0).2 ∧
  trace (session_run (lift p) w).2
    = (trace w ++ (Service <$> service_issued p w0))%list.
Proof.
  unfold issued.
  induction p as [a|e|k IH|s k IH|r k IH|r k IH|k IH]; intros w w0 Hs Hl; cbn.
  1,2: rewrite drop_all, app_nil_r; auto.
  - rewrite Hs. apply IH; assumption.
  - destruct (IH (World s (trace w)) (World s (trace w0)) eq_refl Hl)
      as (Hr & Hst & Htr). auto.
  - change (service_env env (length (trace w0)) r)
      with (env (length (trace w0)) (Service r)).
    rewrite Hl, Hs. set (o := env (length (trace w)) (Service r)).
    destruct (IH o (World (settle r o (state_of w)) (trace w ++ [Service r]))
                (World (settle r o (state_of w)) (trace w0 ++ [r])) eq_refl)
      as (Hr & Hst & Htr).
    { cbn. rewrite !length_app, Hl. reflexivity. }
    split; [exact Hr|]. split; [exact Hst|]. rewrite Htr. cbn [trace].
    destruct (run_trace_prefix (service_env env) settle (k o)
                (World (settle r o (state_of w)) (trace w0 ++ [r]))) as [l Hl'].
    cbn [trace] in Hl'. rewrite Hl'. rewrite drop_app_length.
    rewrite <- Hl, <- (app_assoc (trace w0)), drop_app_length.
    cbn. rewrite <- app_assoc. reflexivity.
  - change (service_env env (length (trace w0)) r)
      with (env (length (trace w0)) (Service r)).
    rewrite Hl, Hs. set (o := env (length (trace w)) (Service r)).
    destruct (IH o (World (settle r o (state_of w)) (trace w ++ [Service r]))
                (World (settle r o (state_of w)) (trace w0 ++ [r])) eq_refl)
      as (Hr & Hst & Htr).
    { cbn. rewrite !length_app, Hl. reflexivity. }
    split; [exact Hr|]. split; [exact Hst|]. rewrite Htr. cbn [trace].
    destruct (run_trace_prefix (service_env env) settle (k o)
                (World (settle r o (state_of w)) (trace w0 ++ [r]))) as [l Hl'].
    cbn [trace] in Hl'. rewrite Hl'. rewrite drop_app_length.
    rewrite <- Hl, <- (app_assoc (trace w0)), drop_app_length.
    cbn. rewrite <- app_assoc. reflexivity.
  - apply IH; assumption.
Qed.


(** X25. [logout] always leaves the module signed out: the access token
    and the profile are both [null] afterwards, whether or not revoking
    or resetting the token fails, and nothing else of the state changes.
    The token is revoked exactly when one was held and the Identity
    Services library is present; no request of the service is issued. *)
Theorem logout_clears_session w :
  let '(r, w') := session_run logout w in
  accessToken (state_of w') = VNull ∧
  currentUserProfile (state_of w') = VNull ∧
  state_of w' = clear_session (state_of w) ∧
  forallb (fun r => negb (is_service r)) (session_issued logout w) = true ∧
  (Revoke (accessToken (state_of w)) ∈ session_issued logout w ↔
   truthy (accessToken (state_of w)) && window_gis (state_of w) = true) ∧
  (window_gapi (state_of w) = false → r = Returned tt).
Proof.
  unfold issued, logout. cbn.
  destruct (truthy (accessToken (state_of w)) && window_gis (state_of w));
    cbn; unfold issue; cbn.
  - destruct (env _ (Revoke _)); cbn;
      destruct (window_gapi (state_of w)), (gapi_client (state_of w));
      cbn; unfold issue; cbn;
      try destruct (env _ (SetToken _)); cbn;
      rewrite <- ?app_assoc, drop_app_length;
      repeat split; auto; try discriminate;
      intros _; cbn; apply list_elem_of_here.
  - destruct (window_gapi (state_of w)), (gapi_client (state_of w));
      cbn; unfold issue; cbn;
      try destruct (env _ (SetToken _)); cbn;
      rewrite ?drop_app_length, ?drop_all;
      repeat split; auto; try discriminate;
      intros Hin;
      repeat (apply elem_of_cons in Hin as [Hin|Hin]; [discriminate|]);
      apply elem_of_nil in Hin; contradiction.
Qed.


(** On a page where both clients are initialised [login] goes straight
    to the token request. *)
Lemma login_run w fields :
  gapiInited (state_of w) = true → gisInited (state_of w) = true →
  tokenClient (state_of w) = VObj fields →
  let ask := RequestAccessToken "consent" in
  let w1 := World (state_of w) (trace w ++ [ask]) in
  session_run (login cfg) w =
  match env (length (trace w)) ask with
  | inr e => (Thrown e, w1)
  | inl tokenResponse =>
      session_run (token_callback (resolved_value tokenResponse)) w1
  end.
Proof.
  intros Hgapi Hgis Hclient. unfold login, ensureGapiClient, ensureGisClient.
  cbn. rewrite Hgapi. cbn. rewrite Hgis, Hclient. cbn. rewrite Hclient.
  unfold issue. cbn. destruct (env _ _); reflexivity.
Qed.

(** X26. On an initialised page, a token response that carries an
    error makes [login] reject with that response; the session is left
    as it was, and nothing is requested after the token. *)
Theorem login_denied w fields tokenResponse :
  gapiInited (state_of w) = true → gisInited (state_of w) = true →
  tokenClient (state_of w) = VObj fields →
  env (length (trace w)) (RequestAccessToken "consent")
    = inl (Resolved tokenResponse) →
  truthy (opt_get tokenResponse "error") = true →
  session_run (login cfg) w =
  (Thrown (Rejection tokenResponse),
   World (state_of w) (trace w ++ [RequestAccessToken "consent"])).
Proof.
  intros Hgapi Hgis Hclient Hask Herror.
  rewrite (login_run w fields Hgapi Hgis Hclient). cbv zeta. rewrite Hask.
  unfold token_callback. cbn [resolved_value].
  destruct tokenResponse; try discriminate; cbn [get]; rewrite Herror;
    reflexivity.
Qed.

Lemma token_callback_run tokenResponse (w : world gs_state session_request) :
  tokenResponse ≠ VUndefined → tokenResponse ≠ VNull →
  truthy (opt_get tokenResponse "error") = false →
  let token := opt_get tokenResponse "access_token" in
  let set := SetToken (VObj [("access_token", token)]) in
  let info := UserInfo "https://openidconnect.googleapis.com/v1/userinfo" in
  let n := length (trace w) in
  let signed profile tr :=
    World (set_currentUserProfile profile (set_accessToken token (state_of w)))
      (trace w ++ tr) in
  session_run (token_callback tokenResponse) w =
  match env n set with
  | inr _ =>
      (Returned Pending,
       World (set_accessToken token (state_of w)) (trace w ++ [set]))
  | inl _ =>
      match env (S n) info with
      | inl (Resolved res) =>
          match get res "result" with
          | Some result =>
              let profile := profile_of (or_else result (VObj [])) in
              (Returned (Resolves profile), signed profile [set; info])
          | None =>
              (Returned (Resolves EMPTY_PROFILE),
               signed EMPTY_PROFILE [set; info])
          end
      | inl (Buffer _) =>
          let profile := profile_of (VObj []) in
          (Returned (Resolves profile), signed profile [set; info])
      | inr _ =>
          (Returned (Resolves EMPTY_PROFILE), signed EMPTY_PROFILE [set; info])
      end
  end.
Proof.
  intros Hu Hn Herror token set info n signed. unfold token_callback.
  rewrite get_defined by assumption. rewrite Herror. fold token.
  cbn. unfold issue. cbn. fold set n.
  destruct (env n set) as [ok|e]; cbn; [|reflexivity].
  unfold issue. cbn. rewrite length_app. cbn [length]. rewrite Nat.add_1_r.
  fold n. unfold USERINFO_PATH. fold info.
  destruct (env (S n) info) as [[res|data]|e]; cbn;
    unfold signed; rewrite <- ?app_assoc; try reflexivity.
  destruct (get res "result"); cbn; rewrite <- ?app_assoc; reflexivity.
Qed.

(** X27. On an initialised page, a granted token is stored and handed
    to the client, the user's profile is fetched and [login] resolves
    with its name, email and picture, each the empty text when missing.
    Afterwards [getUser] returns the same profile and [initClient]
    reports whether the token is truthy, without any request. *)
Theorem login_profile w fields tokenResponse ok res :
  gapiInited (state_of w) = true → gisInited (state_of w) = true →
  tokenClient (state_of w) = VObj fields →
  tokenResponse ≠ VUndefined → tokenResponse ≠ VNull →
  truthy (opt_get tokenResponse "error") = false →
  res ≠ VUndefined → res ≠ VNull →
  let token := opt_get tokenResponse "access_token" in
  let ask := RequestAccessToken "consent" in
  let set := SetToken (VObj [("access_token", token)]) in
  let info := UserInfo "https://openidconnect.googleapis.com/v1/userinfo" in
  let n := length (trace w) in
  env n ask = inl (Resolved tokenResponse) →
  env (S n) set = inl ok →
  env (S (S n)) info = inl (Resolved res) →
  let result := or_else (opt_get res "result") (VObj []) in
  let profile :=
    VObj [ ("name", or_else (opt_get result "name") (VStr ""));
           ("email", or_else (opt_get result "email") (VStr ""));
           ("photo", or_else (opt_get result "picture") (VStr "")) ] in
  let w' := World (set_currentUserProfile profile
                     (set_accessToken token (state_of w)))
              (trace w ++ [ask; set; info]) in
  session_run (login cfg) w = (Returned (Resolves profile), w') ∧
  session_run getUser w' = (Returned profile, w') ∧
  session_run (lift (initClient cfg)) w' = (Returned (truthy token), w').
Proof.
  intros Hgapi Hgis Hclient Hu Hn Herror Hru Hrn token ask set info n
    Hask Hset Hinfo result profile w'.
  split; [|split].
  - rewrite (login_run w fields Hgapi Hgis Hclient). cbv zeta.
    fold ask n. rewrite Hask. cbn [resolved_value].
    rewrite token_callback_run by assumption. cbv zeta. cbn [trace state_of].
    rewrite length_app. cbn [length]. rewrite Nat.add_1_r.
    fold token set info n. rewrite Hset, Hinfo.
    rewrite get_defined by assumption. unfold w'.
    rewrite <- app_assoc. reflexivity.
  - reflexivity.
  - unfold initClient, ensureGapiClient, ensureGisClient. cbn.
    rewrite Hgapi. cbn. rewrite Hgis, Hclient. reflexivity.
Qed.

(** X28. A failure to fetch the profile does not undo the sign-in:
    [login] still resolves, with the empty profile, and the token
    stays. *)
Theorem login_without_profile w fields tokenResponse ok e :
  gapiInited (state_of w) = true → gisInited (state_of w) = true →
  tokenClient (state_of w) = VObj fields →
  tokenResponse ≠ VUndefined → tokenResponse ≠ VNull →
  truthy (opt_get tokenResponse "error") = false →
  let token := opt_get tokenResponse "access_token" in
  let ask := RequestAccessToken "consent" in
  let set := SetToken (VObj [("access_token", token)]) in
  let info := UserInfo "https://openidconnect.googleapis.com/v1/userinfo" in
  let n := length (trace w) in
  env n ask = inl (Resolved tokenResponse) →
  env (S n) set = inl ok →
  env (S (S n)) info = inr e →
  let profile := VObj [("name", VStr ""); ("email", VStr ""); ("photo", VStr "")] in
  session_run (login cfg) w =
  (Returned (Resolves profile),
   World (set_currentUserProfile profile (set_accessToken token (state_of w)))
     (trace w ++ [ask; set; info])).
Proof.
  intros Hgapi Hgis Hclient Hu Hn Herror token ask set info n
    Hask Hset Hinfo profile.
  rewrite (login_run w fields Hgapi Hgis Hclient). cbv zeta.
  fold ask n. rewrite Hask. cbn [resolved_value].
  rewrite token_callback_run by assumption. cbv zeta. cbn [trace state_of].
  rewrite length_app. cbn [length]. rewrite Nat.add_1_r.
  fold token set info n. rewrite Hset, Hinfo.
  rewrite <- app_assoc. reflexivity.
Qed.

(** X29. After [logout] on an initialised page [getUser] returns
    [null] and [initClient] answers [false], without any request. *)
Theorem signed_out_after_logout w :
  gapiInited (state_of w) = true → gisInited (state_of w) = true →
  truthy (tokenClient (state_of w)) = true →
  let w' := (session_run logout w).2 in
  session_run getUser w' = (Returned VNull, w') ∧
  session_run (lift (initClient cfg)) w' = (Returned false, w').
Proof.
  intros Hgapi Hgis Hclient w'.
  assert (Hstate : state_of w' = clear_session (state_of w)).
  { unfold w', logout. cbn.
    destruct (truthy (accessToken (state_of w)) && window_gis (state_of w));
      cbn; unfold issue; cbn;
      try destruct (env _ (Revoke _)); cbn;
      destruct (window_gapi (state_of w)), (gapi_client (state_of w));
      cbn; unfold issue; cbn;
      try destruct (env _ (SetToken _)); reflexivity. }
  clearbody w'. destruct w' as [s' t']. cbn in Hstate. subst s'. split.
  - reflexivity.
  - unfold initClient, ensureGapiClient, ensureGisClient. cbn.
    rewrite Hgapi. cbn. rewrite Hgis, Hclient. reflexivity.
Qed.

(** X30. [login] runs behind the client bootstrap: when that fails,
    [login] rejects with the same error, has issued requests of the
    service only, so no token was asked for, and the access token and
    the profile are as they were. *)
Theorem login_behind_bootstrap w w0 e w0' :
  state_of w0 = state_of w → length (trace w0) = length (trace w) →
  service_run (ensureGapiClient cfg) w0 = (Thrown e, w0') →
  let '(r, w') := session_run (login cfg) w in
  r = Thrown e ∧
  forallb is_service (session_issued (login cfg) w) = true ∧
  accessToken (state_of w') = accessToken (state_of w) ∧
  currentUserProfile (state_of w') = currentUserProfile (state_of w).
Proof.
  intros Hs Hl Hboot. unfold issued, login.
  rewrite run_bind, run_await.
  destruct (run_lift (ensureGapiClient cfg) w w0 Hs Hl) as (Hr & Hst & Htr).
  pose proof (ensureGapiClient_run cfg (service_env env) w0) as Hrun.
  unfold issued in Htr. rewrite Hboot in Hr, Hst, Htr, Hrun.
  destruct (session_run (lift (ensureGapiClient cfg)) w) as [r w'].
  cbn in Hr, Hst, Htr. subst r. cbn [snd].
  destruct Hrun as (_ & Hsame & _).
  split; [reflexivity|]. split.
  - rewrite Htr, drop_app_length. clear.
    induction (drop _ _) as [|r l IH]; [reflexivity|exact IH].
  - rewrite Hst, <- Hs. exact Hsame.
Qed.

End SessionFacts.

(* ================================================================= *)
(** * Further worked examples *)

Section MoreExamples.
Import Reference Scenarios.

(** The hypotheses of the further theorems hold on the examples. *)
Lemma uploadToDrive_mock_witness :
  gapiInited (state_of warm) = true ∧
  clock_reads (length (trace warm)) DateNow
    = inl (Resolved (VNum 1700000000000%Z)) ∧
  run clock_reads settle
    (uploadToDrive configured (PlainValue (VStr "plan.pdf")) VUndefined) warm
    = (Returned
         (VObj [ ("success", VBool true);
                 ("url", VStr "https://drive.google.com/file/d/mock-1700000000000") ]),
       World (state_of warm) [DateNow]).
Proof.
  split; [reflexivity|]. split; [reflexivity|].
  exact (proj1 (proj2 (proj2
           (@uploadToDrive_mock numbers builtins configured clock_reads
              (VStr "plan.pdf") VUndefined warm)))
           (VNum 1700000000000%Z) eq_refl eq_refl).
Defined.

Lemma read_grid_columns_witness :
  let header := ["name"; ""; "name"; "city"] in
  let row := ["a"; "x"; "b"] in
  ∃ obj,
    [row] !! 0%nat = Some row ∧
    sheetValuesToObjects (Some [header; row]) "S" !! 0%nat = Some obj ∧
    obj !! "" = None ∧ obj !! "name" = Some "b" ∧ obj !! "city" = Some "".
Proof.
  eexists. split; [reflexivity|]. split; [reflexivity|].
  destruct (read_grid_columns
              ["name"; ""; "name"; "city"] [["a"; "x"; "b"]] "S" 0%nat
              ["a"; "x"; "b"] _ eq_refl eq_refl) as (Hempty & _ & Hcell).
  split; [exact Hempty|]. split.
  - apply (Hcell 2%nat "name" eq_refl); try discriminate.
    intros [|[|[|[|j']]]] Hlt; try lia; discriminate.
  - apply (Hcell 3%nat "city" eq_refl); try discriminate.
    intros [|[|[|[|j']]]] Hlt; try lia; discriminate.
Defined.

Lemma read_records_survive_witness :
  let keys := ["id"; "name"] in
  let records := [ [("id", "p1"); ("name", "a")];
                   [("id", "p2"); ("name", "b")] ] in
  ("" ∉ keys) ∧ ("__proto__" ∉ keys) ∧ ("id" ∈ keys) ∧
  sheetValuesToObjects (Some (sheet_rows (record_of <$> records))) "projects"
    = (fun fields => list_to_map fields) <$> records.
Proof.
  assert (Hempty : "" ∉ ["id"; "name"]).
  { intros Hin. repeat (apply elem_of_cons in Hin as [Hin|Hin]; [discriminate|]).
    apply elem_of_nil in Hin. exact Hin. }
  assert (Hproto : "__proto__" ∉ ["id"; "name"]).
  { intros Hin. repeat (apply elem_of_cons in Hin as [Hin|Hin]; [discriminate|]).
    apply elem_of_nil in Hin. exact Hin. }
  split; [exact Hempty|]. split; [exact Hproto|].
  split; [apply list_elem_of_here|].
  apply (@read_records_survive numbers builtins "projects" ["id"; "name"]);
    [exact Hempty|exact Hproto|apply list_elem_of_here|].
  repeat constructor; try reflexivity;
    eexists; (split; [vm_compute; reflexivity|discriminate]).
Defined.


Lemma syncToSheet_clear_before_update_witness :
  let data := VArr [VObj [("name", VStr "a")]; VNull] in
  run all_resolve settle (ensureGapiClient configured) warm = (Returned tt, warm) ∧
  array_items data ≠ [] ∧
  forallb (fun item => match item with
                       | VNull | VUndefined | VObj _ => true
                       | _ => false
                       end) (array_items data) = true ∧
  forallb (fun k => negb (inherited k)) (allKeys (array_items data)) = true ∧
  run all_resolve settle (syncToSheet configured "projects" data) warm
    = (Returned (VObj []),
       World (state_of warm)
         [ SheetsValuesClear (Some "sheet-id") "projects!A:Z";
           SheetsValuesUpdate (Some "sheet-id") "projects!A1" "RAW"
             [["name"]; ["a"]; [""]] ]).
Proof.
  intros data.
  split; [reflexivity|]. split; [discriminate|].
  split; [reflexivity|]. split; [vm_compute; reflexivity|].
  exact (proj2 (proj2 (@syncToSheet_clear_before_update numbers builtins
                         configured all_resolve "projects" data warm warm
                         eq_refl ltac:(discriminate) eq_refl
                         ltac:(vm_compute; reflexivity)))
           _ _ eq_refl eq_refl ltac:(discriminate) ltac:(discriminate)).
Defined.

Lemma ensureGapiClient_failure_witness :
  run all_resolve settle (ensureGapiClient unconfigured) cold
    = (Thrown (Error_ "Missing CLIENT_ID or API_KEY"), cold) ∧
  gapiInited (state_of cold) = false.
Proof.
  split; [reflexivity|].
  exact (proj1 (@ensureGapiClient_failure numbers unconfigured
                  all_resolve cold _ cold eq_refl)).
Defined.

Lemma missing_client_id_witness :
  env_truthy (CLIENT_ID unconfigured) = false ∧
  gapiInited (state_of cold) = false ∧ gisInited (state_of cold) = false ∧
  window_gis (state_of cold) = false ∧
  issued all_resolve settle (ensureGapiClient unconfigured) cold = [] ∧
  issued all_resolve settle (ensureGisClient unconfigured) cold
    = [AppendScript GIS_SCRIPT].
Proof.
  split; [reflexivity|]. split; [reflexivity|]. split; [reflexivity|].
  split; [reflexivity|].
  destruct (@missing_client_id numbers unconfigured all_resolve cold
              eq_refl eq_refl eq_refl eq_refl) as (Hgapi & Hgis & _).
  split; [|exact Hgis]. unfold issued. rewrite Hgapi. reflexivity.
Defined.

Lemma ensureGisClient_again_witness :
  let w1 := (run all_resolve settle (ensureGisClient configured) warm).2 in
  run all_resolve settle (ensureGisClient configured) warm = (Returned tt, w1) ∧
  truthy (tokenClient (state_of w1)) = true ∧
  run all_resolve settle (ensureGisClient configured) w1 = (Returned tt, w1).
Proof.
  split; [reflexivity|]. split; [reflexivity|].
  exact (proj1 (@ensureGisClient_again numbers configured all_resolve
                  warm _ eq_refl) eq_refl).
Defined.

Lemma initClient_signed_out_witness :
  truthy (accessToken (state_of cold)) = false ∧
  ∃ w', run all_resolve settle (initClient configured) cold = (Returned false, w').
Proof.
  split; [reflexivity|].
  destruct (@initClient_signed_out numbers configured all_resolve
              cold eq_refl) as (w' & Hrun & _).
  exists w'. exact Hrun.
Defined.

Lemma fetchSheetData_returns_values_or_empty_witness :
  let w2 := World (state_of warm) [SheetsValuesGet (Some "sheet-id") "projects!A:Z"] in
  run all_resolve settle (fetchSheetData configured "projects") warm
    = (Returned (VArr []), w2) ∧
  truthy (VArr [] : value) = true.
Proof.
  split; [reflexivity|].
  exact (proj1 (@fetchSheetData_returns_values_or_empty numbers
                  configured all_resolve "projects" warm (VArr [])
                  _ eq_refl)).
Defined.



Lemma createDriveFolder_always_creates_witness :
  let create :=
    DriveFilesCreate
      (VObj [ ("name", VStr "未命名客戶");
              ("mimeType", VStr "application/vnd.google-apps.folder");
              ("parents", VArr []) ])
      "id, name, webViewLink" in
  run all_resolve settle (ensureGapiClient configured) warm = (Returned tt, warm) ∧
  trace (run all_resolve settle (createDriveFolder configured VUndefined) warm).2
    = [create] ∧
  issued all_resolve settle (createDriveFolder configured VUndefined)
    (run all_resolve settle (createDriveFolder configured VUndefined) warm).2
    = [create].
Proof.
  split; [reflexivity|].
  pose proof (@createDriveFolder_always_creates numbers configured
                all_resolve VUndefined warm warm eq_refl) as Hthm.
  cbv zeta in Hthm.
  destruct (run all_resolve settle (createDriveFolder configured VUndefined) warm)
    as [r w2].
  destruct Hthm as (Hw & _ & _ & Hagain).
  split; [rewrite Hw; reflexivity|exact Hagain].
Defined.




Lemma handler_other_methods_witness :
  method preflight ≠ "POST" ∧
  run relay_unused relay_settle (handler relay_configured preflight) arrival
    = (Returned tt,
       World (HttpResponse
                {[ "Access-Control-Allow-Methods" := "POST, OPTIONS";
                   "Access-Control-Allow-Headers" := "Content-Type" ]}
                (Some 204%Z) None true) []).
Proof.
  split; [discriminate|].
  pose proof (@handler_other_methods numbers relay_configured relay_unused
                preflight arrival ltac:(discriminate)) as Hthm.
  destruct (run relay_unused relay_settle (handler relay_configured preflight)
              arrival) as [r w'] eqn:Hrun.
  destruct Hthm as (-> & _ & _ & _). rewrite <- Hrun. vm_compute. reflexivity.
Defined.



Lemma calendar_entries_shown_witness :
  calendar_entries month = Some month_shown ∧
  (length month_shown ≤ 3)%nat ∧
  ∀ entry, entry ∈ month_shown → truthy (opt_get entry "date") = true.
Proof.
  split; [reflexivity|].
  destruct (@calendar_entries_shown numbers month month_shown eq_refl)
    as (_ & Hlen & Hshown).
  split; [exact (Hlen _ eq_refl)|].
  intros entry Hin.
  destruct (Hshown entry Hin) as (i & title & date & time & -> & _ & Hdate).
  exact Hdate.
Defined.

Lemma eventsByDate_groups_witness :
  ∃ m, eventsByDate (VArr month_shown) = Some m ∧
       m !! "2025-06-01" = Some month_shown ∧ m !! "2025-06-02" = None.
Proof.
  eexists. split; [reflexivity|].
  destruct (@eventsByDate_groups numbers (VArr month_shown) _ eq_refl)
    as (l & Hl & Hgroups).
  injection Hl as <-. split; apply Hgroups.
Defined.

Lemma entries_all_grouped_witness :
  ∃ m, calendar_entries month = Some month_shown ∧
       eventsByDate (VArr month_shown) = Some m ∧
       ∀ entry, entry ∈ month_shown →
         ∃ es, m !! String_ (opt_get entry "date") = Some es ∧ entry ∈ es.
Proof.
  eexists. split; [reflexivity|]. split; [reflexivity|].
  exact (@entries_all_grouped numbers month month_shown _ eq_refl eq_refl).
Defined.

Lemma login_denied_witness :
  gapiInited (state_of ready) = true ∧ gisInited (state_of ready) = true ∧
  tokenClient (state_of ready) = VObj [] ∧
  truthy (opt_get denied "error") = true ∧
  run consent_denied session_settle (login configured) ready
    = (Thrown (Rejection denied),
       World (state_of ready) [RequestAccessToken "consent"]).
Proof.
  split; [reflexivity|]. split; [reflexivity|]. split; [reflexivity|].
  split; [reflexivity|].
  exact (@login_denied numbers configured consent_denied ready [] denied
           eq_refl eq_refl eq_refl eq_refl eq_refl).
Defined.

Lemma login_profile_witness :
  let profile := VObj [ ("name", VStr "Lin"); ("email", VStr "lin@example.com");
                        ("photo", VStr "") ] in
  gapiInited (state_of ready) = true ∧ gisInited (state_of ready) = true ∧
  tokenClient (state_of ready) = VObj [] ∧
  truthy (opt_get granted "error") = false ∧
  (run consent_granted session_settle (login configured) ready).1
    = Returned (Resolves profile) ∧
  accessToken (state_of (run consent_granted session_settle
                           (login configured) ready).2)
    = VStr "ya29.token".
Proof.
  split; [reflexivity|]. split; [reflexivity|]. split; [reflexivity|].
  split; [reflexivity|].
  destruct (@login_profile numbers configured consent_granted ready [] granted
              (Resolved VUndefined) userinfo
              eq_refl eq_refl eq_refl ltac:(discriminate) ltac:(discriminate)
              eq_refl ltac:(discriminate) ltac:(discriminate)
              eq_refl eq_refl eq_refl) as (Hrun & _ & _).
  rewrite Hrun. split; reflexivity.
Defined.

Lemma login_without_profile_witness :
  gapiInited (state_of ready) = true ∧ gisInited (state_of ready) = true ∧
  tokenClient (state_of ready) = VObj [] ∧
  truthy (opt_get granted "error") = false ∧
  (run userinfo_down session_settle (login configured) ready).1
    = Returned (Resolves EMPTY_PROFILE) ∧
  accessToken (state_of (run userinfo_down session_settle
                           (login configured) ready).2)
    = VStr "ya29.token".
Proof.
  split; [reflexivity|]. split; [reflexivity|]. split; [reflexivity|].
  split; [reflexivity|].
  rewrite (@login_without_profile numbers configured userinfo_down ready []
             granted (Resolved VUndefined) (Error_ "403")
             eq_refl eq_refl eq_refl ltac:(discriminate) ltac:(discriminate)
             eq_refl eq_refl eq_refl eq_refl).
  split; reflexivity.
Defined.

Lemma signed_out_after_logout_witness :
  let signed_in := (run consent_granted session_settle (login configured) ready).2 in
  let w' := (run consent_granted session_settle logout signed_in).2 in
  gapiInited (state_of signed_in) = true ∧
  gisInited (state_of signed_in) = true ∧
  truthy (tokenClient (state_of signed_in)) = true ∧
  truthy (accessToken (state_of signed_in)) = true ∧
  run consent_granted session_settle getUser w' = (Returned VNull, w') ∧
  run consent_granted session_settle (lift (initClient configured)) w'
    = (Returned false, w').
Proof.
  split; [reflexivity|]. split; [reflexivity|]. split; [reflexivity|].
  split; [reflexivity|].
  exact (@signed_out_after_logout numbers configured consent_granted
           (run consent_granted session_settle (login configured) ready).2
           eq_refl eq_refl eq_refl).
Defined.

Lemma login_behind_bootstrap_witness :
  state_of cold = state_of first_visit ∧
  length (trace cold) = length (trace first_visit) ∧
  run (service_env consent_granted) settle (ensureGapiClient unconfigured) cold
    = (Thrown (Error_ "Missing CLIENT_ID or API_KEY"), cold) ∧
  run consent_granted session_settle (login unconfigured) first_visit
    = (Thrown (Error_ "Missing CLIENT_ID or API_KEY"), first_visit).
Proof.
  split; [reflexivity|]. split; [reflexivity|]. split; [reflexivity|].
  pose proof (@login_behind_bootstrap numbers unconfigured consent_granted
                first_visit cold _ cold eq_refl eq_refl eq_refl) as Hthm.
  destruct (run consent_granted session_settle (login unconfigured) first_visit)
    as [r w'] eqn:Hrun.
  destruct Hthm as (-> & _ & _). rewrite <- Hrun. reflexivity.
Defined.

End MoreExamples.
